(** * Snowpark server connection: type mapping, statement execution and
      plan execution

    A shallow embedding of
    [src/snowflake/snowpark/_internal/server_connection.py].  Python
    integers are [Z], strings are [string], the parameter dictionary is a
    [gmap], the listener set a [gset] of object identities, and the
    methods of [ServerConnection] are state-passing computations over the
    connection object, which may return a value or raise. *)

From stdpp Require Import gmap strings list.
From Stdlib Require Import ZArith.

Local Open Scope Z_scope.

(** ** Data model *)

(** [snowflake.snowpark.types]: the data types the mapper produces. *)
Inductive DataType : Type :=
| ArrayType (element_type : DataType)
| VariantType
| MapType (key_type value_type : DataType)
| GeographyType
| BooleanType
| BinaryType
| StringType
| TimeType
| TimestampType
| DateType
| DecimalType (precision scale : Z)
| DoubleType
| LongType.

(** Exceptions of the connector (the transport).  [str_of] below plays the
    part of Python's [str(ex)]. *)
Inductive ConnectorError : Type :=
| ReauthenticationRequest (cause : string)
| NotSupportedError (msg : string)
| ProgrammingError (msg : string)
| OtherError (msg : string).

Definition str_of (ex : ConnectorError) : string :=
  match ex with
  | ReauthenticationRequest cause => cause
  | NotSupportedError msg => msg
  | ProgrammingError msg => msg
  | OtherError msg => msg
  end.

(** Everything a method of [ServerConnection] can raise: a connector
    exception passing through, a Python builtin exception, or one of the
    exceptions built by [SnowparkClientExceptionMessages]. *)
Inductive Exn : Type :=
| Connector (ex : ConnectorError)
| NotImplementedError (column_type_name : string) (precision scale : Z)
| KeyError (key : nat)
| SERVER_SESSION_HAS_BEEN_CLOSED
| SERVER_SESSION_EXPIRED (cause : string)
| SERVER_FAILED_FETCH_PANDAS (msg : string)
| SERVER_QUERY_IS_CANCELLED
| SQL_LAST_QUERY_RETURN_RESULTSET.

Inductive Result (A : Type) : Type :=
| Return (a : A)
| Raise (e : Exn).
Arguments Return {A} a.
Arguments Raise {A} e.

(** ** Type mapper *)

Section TypeMapper.
(** [DecimalType._MAX_PRECISION] and [DecimalType._MAX_SCALE] are class
    constants of [snowflake.snowpark.types]. *)
Variables _MAX_PRECISION _MAX_SCALE : Z.

Definition _get_data_type (column_type_name : string) (precision scale : Z)
  : Result DataType :=
  if String.eqb column_type_name "ARRAY" then Return (ArrayType StringType)
  else if String.eqb column_type_name "VARIANT" then Return VariantType
  else if String.eqb column_type_name "OBJECT" then
    Return (MapType StringType StringType)
  else if String.eqb column_type_name "GEOGRAPHY" then Return GeographyType
  else if String.eqb column_type_name "BOOLEAN" then Return BooleanType
  else if String.eqb column_type_name "BINARY" then Return BinaryType
  else if String.eqb column_type_name "TEXT" then Return StringType
  else if String.eqb column_type_name "TIME" then Return TimeType
  else if String.eqb column_type_name "TIMESTAMP"
          || String.eqb column_type_name "TIMESTAMP_LTZ"
          || String.eqb column_type_name "TIMESTAMP_TZ"
          || String.eqb column_type_name "TIMESTAMP_NTZ"
  then Return TimestampType
  else if String.eqb column_type_name "DATE" then Return DateType
  else if String.eqb column_type_name "DECIMAL"
          || (String.eqb column_type_name "FIXED" && negb (scale =? 0))
  then
    if negb (precision =? 0) || negb (scale =? 0) then
      if precision >? _MAX_PRECISION then
        Return (DecimalType _MAX_PRECISION (scale + precision - _MAX_SCALE))
      else Return (DecimalType precision scale)
    else Return (DecimalType 38 18)
  else if String.eqb column_type_name "REAL" then Return DoubleType
  else if String.eqb column_type_name "FIXED" && (scale =? 0) then
    Return LongType
  else Raise (NotImplementedError column_type_name precision scale).
End TypeMapper.

(** ** Python builtins used by the plan executor *)

(** [str.replace(old, new)], on strings as sequences of characters: the
    leftmost occurrences of [old] that do not overlap are replaced; with
    an empty [old], [new] is put before every character and at the end.
    [skip] counts the characters of a matched occurrence that remain to
    be dropped. *)
Fixpoint replace_from (old new : string) (skip : nat) (s : string) : string :=
  match s with
  | EmptyString => EmptyString
  | String c s' =>
      match skip with
      | S k => replace_from old new k s'
      | O =>
          if String.prefix old s
          then new +:+ replace_from old new (Nat.pred (String.length old)) s'
          else String c (replace_from old new O s')
      end
  end.

Fixpoint replace_empty (new s : string) : string :=
  match s with
  | EmptyString => EmptyString
  | String c s' => String c (new +:+ replace_empty new s')
  end.

Definition str_replace (s old new : string) : string :=
  match old with
  | EmptyString => new +:+ replace_empty new s
  | String _ _ => replace_from old new O s
  end.

(** A [dict] with string keys, in insertion order: assigning to a key that
    is present keeps its position and replaces its value. *)
Definition dict : Type := list (string * string).

Fixpoint dict_setitem (d : dict) (k v : string) : dict :=
  match d with
  | [] => [(k, v)]
  | (k', v') :: d' =>
      if String.eqb k' k then (k', v) :: d'
      else (k', v') :: dict_setitem d' k v
  end.

Fixpoint dict_get (d : dict) (k : string) : option string :=
  match d with
  | [] => None
  | (k', v') :: d' => if String.eqb k' k then Some v' else dict_get d' k
  end.

(** ** The connector and the session *)

(** Scalar values of a result row or of a parameter row. *)
Inductive Value : Type :=
| VNone
| VInt (n : Z)
| VStr (s : string)
| VBool (b : bool).

(** A row is a tuple of values (field names are not needed here). *)
Definition Row : Type := list Value.

(** [ResultMetadata] of the connector: name, type code, precision, scale
    and nullability of a column. *)
Record ResultMetadata : Type := {
  name : string;
  type_code : Z;
  meta_precision : Z;
  meta_scale : Z;
  is_nullable : bool
}.

(** The keyword arguments passed down to the cursor.  The only key the
    code inspects is ["_statement_params"], a dictionary. *)
Record Kwargs : Type := {
  _statement_params : option (gmap string string)
}.

(** What [fetchall] and [fetch_pandas_all] give back. *)
Inductive ResultData : Type :=
| RowList (rows : list Row)
| PandasDataFrame (frame : list Row).

(** The attributes the code reads from the cursor that [execute] and
    [executemany] return. *)
Record Cursor : Type := {
  sfqid : string;
  query : string
}.

(** A query record, as handed to the listeners: [(sfqid, query)]. *)
Definition QueryRecord : Type := (string * string)%type.

(** [(cursor.sfqid, cursor.query)] *)
Definition record_of (cursor : Cursor) : QueryRecord :=
  (sfqid cursor, query cursor).

(** The collaborators outside this file, over a state [W] of their own:
    the connection and its cursor, the session of the plan (action ids
    and the last cancelled id) and [Utils.is_in_stored_procedure].  Calls
    of the cursor may raise a connector exception. *)
Record Transport (W : Type) : Type := {
  tr_is_closed : W → bool;
  tr_close : W → W;
  tr_session_id : W → Z;
  tr_execute : string → Kwargs → W → (ConnectorError + Cursor) * W;
  tr_executemany :
    string → list (list Value) → W → (ConnectorError + Cursor) * W;
  tr_fetchall : W → (ConnectorError + list Row) * W;
  tr_fetch_pandas_all : W → (ConnectorError + list Row) * W;
  tr_description : W → option (list ResultMetadata);
  tr_generate_new_action_id : W → Z * W;
  tr_get_last_canceled_id : W → Z;
  tr_is_in_stored_procedure : W → bool;
  tr_quote_name : string → string
}.
Arguments tr_is_closed {W} _ _.
Arguments tr_close {W} _ _.
Arguments tr_session_id {W} _ _.
Arguments tr_execute {W} _ _ _ _.
Arguments tr_executemany {W} _ _ _ _.
Arguments tr_fetchall {W} _ _.
Arguments tr_fetch_pandas_all {W} _ _.
Arguments tr_description {W} _ _.
Arguments tr_generate_new_action_id {W} _ _.
Arguments tr_get_last_canceled_id {W} _ _.
Arguments tr_is_in_stored_procedure {W} _ _.
Arguments tr_quote_name {W} _ _.

(** One call of the cursor, with what it was given and what came back.
    The connection keeps the list of these calls as a ghost field. *)
Inductive Event : Type :=
| EvExecute (text : string) (kwargs : Kwargs)
    (outcome : ConnectorError + Cursor)
| EvExecuteMany (text : string) (params : list (list Value))
    (outcome : ConnectorError + Cursor).

(** The text a call submitted. *)
Definition submitted (ev : Event) : string :=
  match ev with
  | EvExecute text _ _ => text
  | EvExecuteMany text _ _ => text
  end.

(** The query record of a call that succeeded. *)
Definition executed_record (ev : Event) : list QueryRecord :=
  match ev with
  | EvExecute _ _ (inr c) | EvExecuteMany _ _ (inr c) => [record_of c]
  | _ => []
  end.

Definition executed_records (evs : list Event) : list QueryRecord :=
  concat (map executed_record evs).

(** The [ServerConnection] object.  Listeners are [QueryHistory] objects,
    known by their identity; [histories] is the store of their query
    lists: for each listener, the records it was handed, in order. *)
Record ServerConnection (W : Type) : Type := {
  _conn : W;
  _lower_case_parameters : gmap string string;
  _query_listener : gset nat;
  histories : nat → list QueryRecord;
  calls : list Event
}.
Arguments _conn {W} _.
Arguments _lower_case_parameters {W} _.
Arguments _query_listener {W} _.
Arguments histories {W} _.
Arguments calls {W} _.

(** [snowflake_plan]: a statement is a [Query] with its placeholder token,
    or a [BatchInsertQuery] with its rows. *)
Inductive Query : Type :=
| Query_ (sql : string) (query_id_place_holder : string)
| BatchInsertQuery (sql : string) (rows : list Row).

Record SnowflakePlan : Type := {
  queries : list Query;
  post_actions : list string
}.

(** ** Methods of [ServerConnection] *)

Section Methods.
Context {W : Type} (T : Transport W).

(** A method: from the connection object to a result, or an exception,
    and the connection object afterwards. *)
Definition M (A : Type) : Type :=
  ServerConnection W → Result A * ServerConnection W.

Definition ret {A} (a : A) : M A := λ self, (Return a, self).

Definition raise {A} (e : Exn) : M A := λ self, (Raise e, self).

Definition bind {A B} (m : M A) (k : A → M B) : M B := λ self,
  match m self with
  | (Return a, self') => k a self'
  | (Raise e, self') => (Raise e, self')
  end.

Local Notation "'let*' x := m 'in' k" := (bind m (λ x, k))
  (at level 10, x pattern, m at level 100, k at level 200).

(** [try: body finally: cleanup].  The cleanup always runs; an exception
    of the cleanup replaces the outcome of the body. *)
Definition try_finally {A} (body : M A) (cleanup : M unit) : M A := λ self,
  let '(outcome, self1) := body self in
  match cleanup self1 with
  | (Return _, self2) => (outcome, self2)
  | (Raise e, self2) => (Raise e, self2)
  end.

Definition set_conn (w : W) (self : ServerConnection W) : ServerConnection W :=
  {| _conn := w;
     _lower_case_parameters := _lower_case_parameters self;
     _query_listener := _query_listener self;
     histories := histories self;
     calls := calls self |}.

Definition log_call (ev : Event) (self : ServerConnection W)
  : ServerConnection W :=
  {| _conn := _conn self;
     _lower_case_parameters := _lower_case_parameters self;
     _query_listener := _query_listener self;
     histories := histories self;
     calls := calls self ++ [ev] |}.

Definition set_histories (h : nat → list QueryRecord)
    (self : ServerConnection W) : ServerConnection W :=
  {| _conn := _conn self;
     _lower_case_parameters := _lower_case_parameters self;
     _query_listener := _query_listener self;
     histories := h;
     calls := calls self |}.

Definition set_query_listener (ls : gset nat) (self : ServerConnection W)
  : ServerConnection W :=
  {| _conn := _conn self;
     _lower_case_parameters := _lower_case_parameters self;
     _query_listener := ls;
     histories := histories self;
     calls := calls self |}.

(** *** Calls of [self._cursor] and of the session *)

Definition of_outcome {A} (outcome : ConnectorError + A) : Result A :=
  match outcome with
  | inl ex => Raise (Connector ex)
  | inr a => Return a
  end.

Definition _cursor_execute (text : string) (kwargs : Kwargs) : M Cursor :=
  λ self,
    let '(outcome, w) := tr_execute T text kwargs (_conn self) in
    (of_outcome outcome,
     log_call (EvExecute text kwargs outcome) (set_conn w self)).

Definition _cursor_executemany (text : string) (params : list (list Value))
  : M Cursor :=
  λ self,
    let '(outcome, w) := tr_executemany T text params (_conn self) in
    (of_outcome outcome,
     log_call (EvExecuteMany text params outcome) (set_conn w self)).

Definition fetchall : M ResultData := λ self,
  let '(outcome, w) := tr_fetchall T (_conn self) in
  (of_outcome (sum_map id RowList outcome), set_conn w self).

(** [self._cursor.description]: [None] when the cursor has no description
    of its last statement. *)
Definition _cursor_description : M (option (list ResultMetadata)) :=
  λ self,
  (Return (tr_description T (_conn self)), self).

Definition _generate_new_action_id : M Z := λ self,
  let '(action_id, w) := tr_generate_new_action_id T (_conn self) in
  (Return action_id, set_conn w self).

Definition _get_last_canceled_id : M Z := λ self,
  (Return (tr_get_last_canceled_id T (_conn self)), self).

(** *** [_Decorator.wrap_exception] *)

Definition wrap_exception {A} (func : M A) : M A := λ self,
  if tr_is_closed T (_conn self) then
    (Raise SERVER_SESSION_HAS_BEEN_CLOSED, self)
  else
    match func self with
    | (Raise (Connector (ReauthenticationRequest cause)), self') =>
        (Raise (SERVER_SESSION_EXPIRED cause), self')
    | (Raise ex, self') => (Raise ex, self')
    | (Return a, self') => (Return a, self')
    end.

(** *** Listeners *)

Definition add_query_listener (listener : nat) : M unit := λ self,
  (Return tt, set_query_listener ({[listener]} ∪ _query_listener self) self).

(** [set.remove] raises [KeyError] when the element is absent. *)
Definition remove_query_listener (listener : nat) : M unit := λ self,
  if decide (listener ∈ _query_listener self) then
    (Return tt,
     set_query_listener (_query_listener self ∖ {[listener]}) self)
  else (Raise (KeyError listener), self).

(** Modelled from the spec: [QueryHistory._add_query] belongs to
    [snowflake.snowpark.query_history]; a listener has append-only
    visibility into the (statement id, statement text) pairs. *)
Definition _add_query (listener : nat) (query_record : QueryRecord)
    (h : nat → list QueryRecord) : nat → list QueryRecord :=
  λ l, if decide (l = listener) then h l ++ [query_record] else h l.

Definition notify_query_listeners (query_record : QueryRecord) : M unit :=
  λ self,
    (Return tt,
     set_histories
       (foldl (λ h listener, _add_query listener query_record h)
              (histories self) (elements (_query_listener self)))
       self).

(** *** Accessors *)

(** [close]: [self._conn] is a connection object, which is true in
    [if self._conn]. *)
Definition close : M unit := λ self,
  (Return tt, set_conn (tr_close T (_conn self)) self).

Definition is_closed : M bool := λ self,
  (Return (tr_is_closed T (_conn self)), self).

Definition get_session_id : M Z :=
  wrap_exception (λ self, (Return (tr_session_id T (_conn self)), self)).

Definition get_default_database : M (option string) := λ self,
  (Return (tr_quote_name T <$> _lower_case_parameters self !! "database"),
   self).

Definition get_default_schema : M (option string) := λ self,
  (Return (tr_quote_name T <$> _lower_case_parameters self !! "schema"),
   self).

(** *** Execution engine *)

(** The result dictionary of [run_query]: ["data"] and ["sfqid"]. *)
Record QueryResult : Type := {
  data : ResultData;
  result_sfqid : string
}.

Definition run_query (query : string) (to_pandas : bool) (kwargs : Kwargs)
  : M QueryResult :=
  wrap_exception (
    (* the [try] block is the call and the notification: an exception of
       it is logged and raised again *)
    let* results_cursor := _cursor_execute query kwargs in
    let* _ := notify_query_listeners (record_of results_cursor) in
    let* data :=
      if to_pandas then
        λ self,
          let '(outcome, w) := tr_fetch_pandas_all T (_conn self) in
          match outcome with
          | inr frame => (Return (PandasDataFrame frame), set_conn w self)
          | inl (NotSupportedError _) => fetchall (set_conn w self)
          | inl ex =>
              (Raise (SERVER_FAILED_FETCH_PANDAS (str_of ex)),
               set_conn w self)
          end
      else fetchall in
    ret {| data := data; result_sfqid := sfqid results_cursor |}).

(** The tag statements are executed without keyword arguments. *)
Definition no_kwargs : Kwargs := {| _statement_params := None |}.

(** The value of [query_tag] in [run_batch_insert]. *)
Definition requested_query_tag (kwargs : Kwargs) (w : W) : option string :=
  match _statement_params kwargs with
  | Some statement_params =>
      match statement_params !! "QUERY_TAG" with
      | Some tag => if tr_is_in_stored_procedure T w then None else Some tag
      | None => None
      end
  | None => None
  end.

(** Truth value of [query_tag]: [None] and the empty string are false. *)
Definition truthy (query_tag : option string) : bool :=
  match query_tag with
  | Some (String _ _) => true
  | _ => false
  end.

(** [f"alter session set query_tag='{query_tag}'"]; [None] would be
    formatted as its name, but the statement is built for a true
    [query_tag] only. *)
Definition set_query_tag_statement (query_tag : option string) : string :=
  "alter session set query_tag='" +:+ default "None" query_tag +:+ "'".

Definition run_batch_insert (query : string) (rows : list Row)
    (kwargs : Kwargs) : M unit :=
  wrap_exception (λ self,
    let params := map (λ row : Row, row) rows in
    let query_tag := requested_query_tag kwargs (_conn self) in
    (let* _ :=
       if truthy query_tag then
         let* set_query_tag_cursor :=
           _cursor_execute (set_query_tag_statement query_tag) no_kwargs in
         notify_query_listeners (record_of set_query_tag_cursor)
       else ret tt in
     let* results_cursor := _cursor_executemany query params in
     let* _ := notify_query_listeners (record_of results_cursor) in
     if truthy query_tag then
       let* unset_query_tag_cursor :=
         _cursor_execute "alter session unset query_tag" no_kwargs in
       notify_query_listeners (record_of unset_query_tag_cursor)
     else ret tt) self).

(** *** Plan executor *)

(** The local variables of the statement loop of [get_result_set]. *)
Record Locals : Type := {
  placeholders : dict;
  result : option QueryResult;
  result_meta : option (list ResultMetadata)
}.

Definition initial_locals : Locals :=
  {| placeholders := []; result := None; result_meta := None |}.

(** [for holder, id_ in placeholders.items(): ...replace(holder, id_)] *)
Definition substitute (placeholders : dict) (sql : string) : string :=
  foldl (λ final_query '(holder, id_), str_replace final_query holder id_)
        sql placeholders.

(** The [if]/[else] on the kind of the statement. *)
Definition run_statement (to_pandas : bool) (kwargs : Kwargs)
    (query : Query) (locals : Locals) : M Locals :=
  match query with
  | BatchInsertQuery sql rows =>
      let* _ := run_batch_insert sql rows kwargs in
      ret locals
  | Query_ sql query_id_place_holder =>
      let final_query := substitute (placeholders locals) sql in
      let* result := run_query final_query to_pandas kwargs in
      let* description := _cursor_description in
      ret {| placeholders :=
               dict_setitem (placeholders locals) query_id_place_holder
                            (result_sfqid result);
             result := Some result;
             result_meta := description |}
  end.

(** One turn of the loop: the statement, then the cancellation check. *)
Definition loop_body (action_id : Z) (to_pandas : bool) (kwargs : Kwargs)
    (query : Query) (locals : Locals) : M Locals :=
  let* locals' := run_statement to_pandas kwargs query locals in
  let* last_canceled_id := _get_last_canceled_id in
  if action_id <? last_canceled_id then raise SERVER_QUERY_IS_CANCELLED
  else ret locals'.

Fixpoint run_queries (action_id : Z) (to_pandas : bool) (kwargs : Kwargs)
    (queries : list Query) (locals : Locals) : M Locals :=
  match queries with
  | [] => ret locals
  | query :: queries' =>
      let* locals' := loop_body action_id to_pandas kwargs query locals in
      run_queries action_id to_pandas kwargs queries' locals'
  end.

(** The [finally] block: [for action in plan.post_actions]. *)
Fixpoint run_post_actions (kwargs : Kwargs) (actions : list string)
  : M unit :=
  match actions with
  | [] => ret tt
  | action :: actions' =>
      let* _ := run_query action false kwargs in
      run_post_actions kwargs actions'
  end.

(** The body of [get_result_set]. *)
Definition get_result_set (plan : SnowflakePlan) (to_pandas : bool)
    (kwargs : Kwargs)
  : M (ResultData * option (list ResultMetadata)) :=
  let* action_id := _generate_new_action_id in
  let* locals :=
    try_finally
      (run_queries action_id to_pandas kwargs (queries plan) initial_locals)
      (run_post_actions kwargs (post_actions plan)) in
  match result locals with
  | None => raise SQL_LAST_QUERY_RETURN_RESULTSET
  | Some result => ret (data result, result_meta locals)
  end.

(** [get_result_set] as its callers see it, under
    [SnowflakePlan.Decorator.wrap_exception].  That decorator belongs to
    [snowflake_plan]; it is taken as a translation of the exception that
    leaves the body. *)
Definition decorated_get_result_set (translate : Exn → Exn)
    (plan : SnowflakePlan) (to_pandas : bool) (kwargs : Kwargs)
  : M (ResultData * option (list ResultMetadata)) := λ self,
  match get_result_set plan to_pandas kwargs self with
  | (Raise e, self') => (Raise (translate e), self')
  | (Return r, self') => (Return r, self')
  end.
End Methods.

(** ** Specification vocabulary *)

(** [self'] comes from [self] by the cursor calls [evs], and every call
    that succeeded was broadcast exactly once to each listener
    registered: the history of a registered listener grew by the records
    of [evs], that of any other listener did not change. *)
Definition broadcast {W} (self self' : ServerConnection W)
    (evs : list Event) : Prop :=
  _query_listener self' = _query_listener self
  ∧ _lower_case_parameters self' = _lower_case_parameters self
  ∧ calls self' = calls self ++ evs
  ∧ ∀ listener,
      histories self' listener =
        histories self listener ++
          (if bool_decide (listener ∈ _query_listener self)
           then executed_records evs else []).

(** The call that executes the statement [text] once, with success. *)
Definition executes (kwargs : Kwargs) (text : string) (ev : Event) : Prop :=
  ∃ cursor, ev = EvExecute text kwargs (inr cursor).

(** The translation of exceptions the session guard performs, in the
    words of the specification: a re-authentication signal of the
    transport becomes the session-expired error, anything else is left as
    it is. *)
Definition guard_translation (e : Exn) : Exn :=
  match e with
  | Connector (ReauthenticationRequest cause) => SERVER_SESSION_EXPIRED cause
  | _ => e
  end.

Definition translate_result {A} (r : Result A) : Result A :=
  match r with
  | Return a => Return a
  | Raise e => Raise (guard_translation e)
  end.

(** What a [run_batch_insert] that returns has submitted: the insert with
    its text and rows as given, between the two tag statements when a tag
    is set. *)
Definition batch_events (query : string) (rows : list Row)
    (query_tag : option string) (evs : list Event) : Prop :=
  match query_tag with
  | Some (String _ _ as tag) =>
      ∃ c1 c2 c3,
        evs = [EvExecute ("alter session set query_tag='" +:+ tag +:+ "'")
                 {| _statement_params := None |} (inr c1);
               EvExecuteMany query rows (inr c2);
               EvExecute "alter session unset query_tag"
                 {| _statement_params := None |} (inr c3)]
  | _ => ∃ c2, evs = [EvExecuteMany query rows (inr c2)]
  end.

(** A statement whose execution binds [result]. *)
Definition result_bearing (query : Query) : bool :=
  match query with
  | Query_ _ _ => true
  | BatchInsertQuery _ _ => false
  end.

(** The connector error of a call that failed. *)
Definition failure_of (ev : Event) : option ConnectorError :=
  match ev with
  | EvExecute _ _ (inl ex) | EvExecuteMany _ _ (inl ex) => Some ex
  | _ => None
  end.

(** The [finally] block, started on [self], ended with the exception [e]
    on [self'] after the calls [evs]: the post-actions [done] before the
    one that raised were each executed once, in order, [run_query] raised
    [e] on the next one, [action], which was submitted once if the
    connection was open, and nothing of [rest] was submitted. *)
Definition first_failure {W} (T : Transport W) (kwargs : Kwargs)
    (actions : list string) (self : ServerConnection W) (e : Exn)
    (evs : list Event) (self' : ServerConnection W) : Prop :=
  ∃ (done : list string) (action : string) (rest : list string)
    (evs_done : list Event) (mid : ServerConnection W),
    actions = done ++ action :: rest
    ∧ run_post_actions T kwargs done self = (Return (), mid)
    ∧ Forall2 (executes kwargs) done evs_done
    ∧ calls mid = calls self ++ evs_done
    ∧ run_query T action false kwargs mid = (Raise e, self')
    ∧ evs = evs_done ++
              (if tr_is_closed T (_conn mid) then []
               else [EvExecute action kwargs
                       (tr_execute T action kwargs (_conn mid)).1]).


(** [old] occurs in [s] at position [i]. *)
Fixpoint occurs_at (old s : string) (i : nat) : bool :=
  match i, s with
  | O, _ => String.prefix old s
  | S i', String _ s' => occurs_at old s' i'
  | S _, EmptyString => false
  end.

(** In the words of the specification: [s'] is [s] with every occurrence
    of the token [old] replaced by [new] and no other text altered.  The
    occurrences are taken from the left and do not overlap: up to the
    first occurrence the text is kept, the occurrence becomes [new], and
    the same holds of the text after it. *)
Inductive replaced (old new : string) : string → string → Prop :=
| replaced_absent (s : string) :
    (∀ i, occurs_at old s i = false) →
    replaced old new s s
| replaced_first (a b b' : string) :
    (∀ i, (i < String.length a)%nat →
          occurs_at old (a +:+ old +:+ b) i = false) →
    replaced old new b b' →
    replaced old new (a +:+ old +:+ b) (a +:+ new +:+ b').

(** The bindings applied one after the other, in the order of the
    dictionary. *)
Inductive substituted : dict → string → string → Prop :=
| substituted_nil (s : string) : substituted [] s s
| substituted_cons (holder id_ : string) (bindings : dict)
    (s s1 s2 : string) :
    replaced holder id_ s s1 →
    substituted bindings s1 s2 →
    substituted ((holder, id_) :: bindings) s s2.

(** ** A scripted connector

    A small connector to run the methods on: statements get the ids
    ["123"], ["124"], ... in the order of their execution; the script
    says which statement texts fail, which ones are followed by a
    cancellation of the running action, and what the two fetches do. *)

Record Script : Type := {
  closed : bool;
  executed : nat;
  failing : list string;
  cancelling : list string;
  last_action_id : Z;
  last_canceled_id : Z;
  fetchall_error : option ConnectorError;
  fetch_pandas_error : option ConnectorError;
  in_stored_procedure : bool
}.

Definition mentions (texts : list string) (text : string) : bool :=
  existsb (String.eqb text) texts.

Definition statement_id (n : nat) : string :=
  nth n ["123"; "124"; "125"; "126"; "127"; "128"] "129".

Definition script_execute (text : string) (w : Script)
  : (ConnectorError + Cursor) * Script :=
  if mentions (failing w) text then (inl (ProgrammingError text), w)
  else
    (inr {| sfqid := statement_id (executed w); query := text |},
     {| closed := closed w;
        executed := S (executed w);
        failing := failing w;
        cancelling := cancelling w;
        last_action_id := last_action_id w;
        last_canceled_id :=
          if mentions (cancelling w) text then last_action_id w + 1
          else last_canceled_id w;
        fetchall_error := fetchall_error w;
        fetch_pandas_error := fetch_pandas_error w;
        in_stored_procedure := in_stored_procedure w |}).

Definition script_rows (w : Script) : list Row :=
  [[VInt (Z.of_nat (executed w))]].

Definition scripted : Transport Script :=
  {| tr_is_closed := closed;
     tr_close := λ w,
       {| closed := true;
          executed := executed w;
          failing := failing w;
          cancelling := cancelling w;
          last_action_id := last_action_id w;
          last_canceled_id := last_canceled_id w;
          fetchall_error := fetchall_error w;
          fetch_pandas_error := fetch_pandas_error w;
          in_stored_procedure := in_stored_procedure w |};
     tr_session_id := λ _, 7;
     tr_execute := λ text _ w, script_execute text w;
     tr_executemany := λ text _ w, script_execute text w;
     tr_fetchall := λ w,
       (match fetchall_error w with
        | Some ex => inl ex
        | None => inr (script_rows w)
        end, w);
     tr_fetch_pandas_all := λ w,
       (match fetch_pandas_error w with
        | Some ex => inl ex
        | None => inr (script_rows w)
        end, w);
     tr_description := λ _, Some [];
     tr_generate_new_action_id := λ w,
       (last_action_id w + 1,
        {| closed := closed w;
           executed := executed w;
           failing := failing w;
           cancelling := cancelling w;
           last_action_id := last_action_id w + 1;
           last_canceled_id := last_canceled_id w;
           fetchall_error := fetchall_error w;
           fetch_pandas_error := fetch_pandas_error w;
           in_stored_procedure := in_stored_procedure w |});
     tr_get_last_canceled_id := last_canceled_id;
     tr_is_in_stored_procedure := in_stored_procedure;
     tr_quote_name := λ name, String.append "<" (String.append name ">") |}.

(** An open session in which the statements of [failing] fail and those
    of [cancelling] are followed by a cancellation. *)
Definition script (failing cancelling : list string) : Script :=
  {| closed := false;
     executed := 0;
     failing := failing;
     cancelling := cancelling;
     last_action_id := 0;
     last_canceled_id := 0;
     fetchall_error := None;
     fetch_pandas_error := None;
     in_stored_procedure := false |}.

(** An open session in which every statement succeeds. *)
Definition quiet : Script := script [] [].

(** The session [w] once closed. *)
Definition closed_session (w : Script) : Script := tr_close scripted w.

(** The session [w] with the given failures of the two fetches. *)
Definition with_fetches (pandas_error fetch_error : option ConnectorError)
    (w : Script) : Script :=
  {| closed := closed w;
     executed := executed w;
     failing := failing w;
     cancelling := cancelling w;
     last_action_id := last_action_id w;
     last_canceled_id := last_canceled_id w;
     fetchall_error := fetch_error;
     fetch_pandas_error := pandas_error;
     in_stored_procedure := in_stored_procedure w |}.

(** Keyword arguments that ask for a query tag. *)
Definition with_query_tag (tag : string) : Kwargs :=
  {| _statement_params := Some {[ "QUERY_TAG" := tag ]} |}.

(** A connection object on a connector state, with the given listeners
    and empty histories. *)
Definition connection {W} (w : W) (parameters : gmap string string)
    (listeners : gset nat) : ServerConnection W :=
  {| _conn := w;
     _lower_case_parameters := parameters;
     _query_listener := listeners;
     histories := λ _, [];
     calls := [] |}.

(** ** Further methods of [ServerConnection] *)

(** [sf_attribute.Attribute]: quoted column name, data type, nullable. *)
Record Attribute : Type := {
  attr_name : string;
  datatype : DataType;
  nullable : bool
}.

(** More collaborators outside this file: [self._cursor.describe], the
    session parameters the connector caches, the type table
    [FIELD_ID_TO_NAME] of the connector ([None] where it has no entry),
    the quoting of [AnalyzerPackage], [Utils], and the string methods
    [upper], [lower] and [strip] of Python. *)
Record Environment (W : Type) : Type := {
  env_describe :
    string → W → (ConnectorError + list ResultMetadata) * W;
  env_session_parameters : W → gmap string string;
  FIELD_ID_TO_NAME : Z → option string;
  quote_name_without_upper_casing : string → string;
  get_application_name : string;
  get_version : string;
  normalize_stage_location : string → string;
  str_upper : string → string;
  str_lower : string → string;
  str_strip : string → string
}.
Arguments env_describe {W} _ _ _.
Arguments env_session_parameters {W} _ _.
Arguments FIELD_ID_TO_NAME {W} _ _.
Arguments quote_name_without_upper_casing {W} _ _.
Arguments get_application_name {W} _.
Arguments get_version {W} _.
Arguments normalize_stage_location {W} _ _.
Arguments str_upper {W} _ _.
Arguments str_lower {W} _ _.
Arguments str_strip {W} _ _.

Definition PARAM_APPLICATION : string := "application".
Definition PARAM_INTERNAL_APPLICATION_NAME : string :=
  "internal_application_name".
Definition PARAM_INTERNAL_APPLICATION_VERSION : string :=
  "internal_application_version".

Section FurtherMethods.
Context {W : Type} (T : Transport W) (E : Environment W).
Variables _MAX_PRECISION _MAX_SCALE : Z.

(** [__add_application_name], on the dictionary of parameters. *)
Definition __add_application_name (parameters : gmap string string)
  : gmap string string :=
  let parameters1 :=
    if decide (PARAM_APPLICATION ∈ dom parameters) then parameters
    else <[PARAM_APPLICATION := get_application_name E]> parameters in
  let parameters2 :=
    if decide (PARAM_INTERNAL_APPLICATION_NAME ∈ dom parameters1)
    then parameters1
    else <[PARAM_INTERNAL_APPLICATION_NAME := get_application_name E]>
           parameters1 in
  if decide (PARAM_INTERNAL_APPLICATION_VERSION ∈ dom parameters2)
  then parameters2
  else <[PARAM_INTERNAL_APPLICATION_VERSION := get_version E]> parameters2.

(** [get_parameter_value] *)
Definition get_parameter_value (parameter_name : string)
  : M (option string) :=
  wrap_exception T (λ self,
    (Return (env_session_parameters E (_conn self)
               !! str_upper E parameter_name), self)).

(** The type of one column: the name of its type code, then
    [_get_data_type].  A type code without an entry raises [KeyError];
    type codes are indices of the connector's table. *)
Definition column_data_type (column : ResultMetadata) : Result DataType :=
  match FIELD_ID_TO_NAME E (type_code column) with
  | None => Raise (KeyError (Z.to_nat (type_code column)))
  | Some column_type_name =>
      _get_data_type _MAX_PRECISION _MAX_SCALE column_type_name
                     (meta_precision column) (meta_scale column)
  end.

(** [convert_result_meta_to_attribute] *)
Fixpoint convert_result_meta_to_attribute (meta : list ResultMetadata)
  : Result (list Attribute) :=
  match meta with
  | [] => Return []
  | column :: meta' =>
      let quoted_name := quote_name_without_upper_casing E (name column) in
      match column_data_type column with
      | Raise e => Raise e
      | Return data_type =>
          match convert_result_meta_to_attribute meta' with
          | Raise e => Raise e
          | Return attributes =>
              Return ({| attr_name := quoted_name;
                         datatype := data_type;
                         nullable := is_nullable column |} :: attributes)
          end
      end
  end.

(** [get_result_attributes] *)
Definition get_result_attributes (query : string) : M (list Attribute) :=
  wrap_exception T (λ self,
    let lowercase := str_lower E (str_strip E query) in
    if String.prefix "put" lowercase || String.prefix "get" lowercase then
      (Return [], self)
    else
      let '(outcome, w) := env_describe E query (_conn self) in
      match outcome with
      | inl ex => (Raise (Connector ex), set_conn w self)
      | inr meta => (convert_result_meta_to_attribute meta, set_conn w self)
      end).

(** [__build_target_path] *)
Definition __build_target_path (stage_location dest_prefix : string)
  : string :=
  let qualified_stage_name := normalize_stage_location E stage_location in
  let dest_prefix_name :=
    match dest_prefix with
    | EmptyString => dest_prefix
    | String _ _ =>
        if String.prefix "/" dest_prefix then dest_prefix
        else "/" +:+ dest_prefix
    end in
  qualified_stage_name +:+
    match dest_prefix_name with
    | EmptyString => EmptyString
    | String _ _ => dest_prefix_name
    end.
End FurtherMethods.


(** The outcome is a re-authentication request of the connector, as it
    was raised. *)
Definition raises_reauthentication {A} (r : Result A) : bool :=
  match r with
  | Raise (Connector (ReauthenticationRequest _)) => true
  | _ => false
  end.

(** The recognised logical type names of [_get_data_type]. *)
Definition recognized_type_names : list string :=
  ["ARRAY"; "VARIANT"; "OBJECT"; "GEOGRAPHY"; "BOOLEAN"; "BINARY"; "TEXT";
   "TIME"; "TIMESTAMP"; "TIMESTAMP_LTZ"; "TIMESTAMP_TZ"; "TIMESTAMP_NTZ";
   "DATE"; "DECIMAL"; "REAL"; "FIXED"].

(** An environment to run the further methods on: [describe] gives the
    columns scripted for the statement, names are quoted with brackets,
    the type table knows the codes 0 to 2, and the string methods leave
    their argument as it is. *)
Definition scripted_environment
    (described : string → ConnectorError + list ResultMetadata)
  : Environment Script :=
  {| env_describe := λ query w, (described query, w);
     env_session_parameters := λ _, {[ "TIMEZONE" := "UTC" ]};
     FIELD_ID_TO_NAME := λ code,
       if code =? 0 then Some "FIXED"
       else if code =? 1 then Some "REAL"
       else if code =? 2 then Some "TEXT"
       else if code =? 3 then Some "INTERVAL"
       else None;
     quote_name_without_upper_casing := λ s,
       String.append "<" (String.append s ">");
     get_application_name := "PythonSnowpark";
     get_version := "0.4.0";
     normalize_stage_location := λ s, String.append "@" s;
     str_upper := λ s, s;
     str_lower := λ s, s;
     str_strip := λ s, s |}.

(** ** Properties *)

(** *** Replacement of placeholders *)

Lemma prefix_append (old b : string) : String.prefix old (old +:+ b) = true.
Proof.
  induction old as [| c old IH]; simpl.
  - now destruct b.
  - destruct (Ascii.ascii_dec c c); [exact IH | congruence].
Qed.

Lemma prefix_split (old s : string) :
  String.prefix old s = true → ∃ b, s = old +:+ b.
Proof.
  revert s. induction old as [| c old IH]; intros s H.
  - exists s. reflexivity.
  - destruct s as [| c' s]; simpl in H; [discriminate |].
    destruct (Ascii.ascii_dec c c') as [-> | ]; [| discriminate].
    destruct (IH s H) as [b ->]. exists b. reflexivity.
Qed.

Lemma replace_from_skip (old new x b : string) :
  replace_from old new (String.length x) (x +:+ b) = replace_from old new O b.
Proof.
  induction x as [| c x IH]; simpl.
  - now destruct b.
  - exact IH.
Qed.

Lemma replace_from_cons (old new : string) (c : Ascii.ascii) (s : string) :
  String.prefix old (String c s) = false →
  replace_from old new O (String c s) = String c (replace_from old new O s).
Proof. intros H. cbn [replace_from]. now rewrite H. Qed.

Lemma replace_from_match (old new : string) (c : Ascii.ascii) (old' b : string) :
  old = String c old' →
  replace_from old new O (old +:+ b) = new +:+ replace_from old new O b.
Proof.
  intros ->.
  change (String c old' +:+ b) with (String c (old' +:+ b)).
  cbn [replace_from].
  change (String c (old' +:+ b)) with (String c old' +:+ b).
  rewrite prefix_append. cbn [String.length Nat.pred].
  now rewrite replace_from_skip.
Qed.

(** Up to the first occurrence the text is kept. *)
Lemma replaced_cons (old new : string) (c : Ascii.ascii) (s r : string) :
  String.prefix old (String c s) = false →
  replaced old new s r →
  replaced old new (String c s) (String c r).
Proof.
  intros Hc H.
  inversion H as [s0 Habsent | a b b' Hbefore Hrest]; subst.
  - apply replaced_absent. intros [| i]; [exact Hc | apply Habsent].
  - apply (replaced_first old new (String c a) b b'); [| exact Hrest].
    intros [| i] Hi; [exact Hc |]. apply Hbefore. cbn in Hi. lia.
Qed.

Lemma append_length (a b : string) :
  String.length (a +:+ b) = (String.length a + String.length b)%nat.
Proof. induction a as [| c a IH]; simpl; [reflexivity | now f_equal]. Qed.

(** [str.replace] with a token that is not empty replaces every
    occurrence and alters nothing else. *)
Lemma str_replace_replaced (s old new : string) :
  old ≠ EmptyString → replaced old new s (str_replace s old new).
Proof.
  intros Hold. destruct old as [| c0 old0]; [congruence |].
  cbn [str_replace]. clear Hold.
  remember (String.length s) as n eqn:Hn.
  assert (Hle : (String.length s ≤ n)%nat) by lia. clear Hn.
  revert s Hle. induction n as [| n IH]; intros s Hle.
  - destruct s; cbn in Hle; [| lia].
    apply replaced_absent. intros [| i]; reflexivity.
  - destruct s as [| c s].
    { apply replaced_absent. intros [| i]; reflexivity. }
    destruct (String.prefix (String c0 old0) (String c s)) eqn:Hp.
    + destruct (prefix_split _ _ Hp) as [b Hb]. rewrite Hb.
      rewrite (replace_from_match _ new c0 old0 b eq_refl).
      apply (replaced_first (String c0 old0) new EmptyString b).
      * intros i Hi. cbn in Hi. lia.
      * apply IH.
        assert (String.length (String c s)
                = String.length (String c0 old0 +:+ b)) as Hlen
          by now rewrite Hb.
        rewrite append_length in Hlen. cbn in Hlen, Hle. lia.
    + rewrite replace_from_cons by exact Hp.
      apply replaced_cons; [exact Hp |]. apply IH. cbn in Hle. lia.
Qed.

Lemma substitute_cons (holder id_ : string) (bindings : dict) (sql : string) :
  substitute ((holder, id_) :: bindings) sql =
    substitute bindings (str_replace sql holder id_).
Proof. reflexivity. Qed.

Lemma substitute_substituted (bindings : dict) (sql : string) :
  Forall (λ binding, binding.1 ≠ EmptyString) bindings →
  substituted bindings sql (substitute bindings sql).
Proof.
  intros Htokens. revert sql.
  induction Htokens as [| [holder id_] bindings Hholder _ IH]; intros sql.
  - apply substituted_nil.
  - rewrite substitute_cons.
    eapply substituted_cons; [now apply str_replace_replaced | apply IH].
Qed.

(** Assignment to a key of the dictionary. *)
Lemma dict_get_setitem (d : dict) (k v : string) :
  dict_get (dict_setitem d k v) k = Some v.
Proof.
  induction d as [| [k' v'] d IH]; cbn.
  - now rewrite String.eqb_refl.
  - destruct (String.eqb k' k) eqn:E; cbn; rewrite E; [reflexivity | exact IH].
Qed.

Lemma dict_get_setitem_ne (d : dict) (k k' v : string) :
  k ≠ k' → dict_get (dict_setitem d k v) k' = dict_get d k'.
Proof.
  intros Hne. induction d as [| [k0 v0] d IH]; cbn.
  - apply String.eqb_neq in Hne. now rewrite Hne.
  - destruct (String.eqb k0 k) eqn:E; cbn.
    + apply String.eqb_eq in E. subst k0.
      apply String.eqb_neq in Hne. now rewrite Hne.
    + destruct (String.eqb k0 k'); [reflexivity | exact IH].
Qed.

(** A new key goes to the end; a key that is present keeps its place. *)
Lemma dict_setitem_new (d : dict) (k v : string) :
  dict_get d k = None → dict_setitem d k v = d ++ [(k, v)].
Proof.
  induction d as [| [k' v'] d IH]; cbn; [reflexivity |].
  destruct (String.eqb k' k); [discriminate |].
  intros H. now rewrite IH.
Qed.

Lemma dict_setitem_keys (d : dict) (k v v0 : string) :
  dict_get d k = Some v0 → map fst (dict_setitem d k v) = map fst d.
Proof.
  induction d as [| [k' v'] d IH]; cbn; [discriminate |].
  destruct (String.eqb k' k); [reflexivity |].
  intros H. cbn. now rewrite IH.
Qed.

Section Frames.
Context {W : Type} (T : Transport W).

Lemma executed_records_app (evs1 evs2 : list Event) :
  executed_records (evs1 ++ evs2) =
    executed_records evs1 ++ executed_records evs2.
Proof. unfold executed_records. now rewrite map_app, concat_app. Qed.

Lemma broadcast_refl (self : ServerConnection W) : broadcast self self [].
Proof.
  repeat split; try now rewrite app_nil_r.
  intros l. case_bool_decide; now rewrite app_nil_r.
Qed.

Lemma broadcast_trans (s1 s2 s3 : ServerConnection W) evs1 evs2 :
  broadcast s1 s2 evs1 → broadcast s2 s3 evs2 →
  broadcast s1 s3 (evs1 ++ evs2).
Proof.
  intros (Hl1 & Hp1 & Hc1 & Hh1) (Hl2 & Hp2 & Hc2 & Hh2).
  repeat split; try congruence.
  - now rewrite Hc2, Hc1, app_assoc.
  - intros l. rewrite Hh2, Hh1, Hl1, executed_records_app.
    case_bool_decide; now rewrite <- ?app_assoc, ?app_nil_r.
Qed.

Lemma broadcast_set_conn (self : ServerConnection W) w :
  broadcast self (set_conn w self) [].
Proof.
  repeat split; cbn; try now rewrite app_nil_r.
  intros l. case_bool_decide; now rewrite app_nil_r.
Qed.

(** The loop of [notify_query_listeners] appends the record to the
    history of each listener it visits, once. *)
Lemma notify_loop query_record (ls : list nat) h l :
  NoDup ls →
  foldl (λ h listener, _add_query listener query_record h) h ls l =
    h l ++ (if bool_decide (l ∈ ls) then [query_record] else []).
Proof.
  intros Hnd. revert h. induction Hnd as [| x ls Hx Hnd IH]; intros h; cbn.
  - now rewrite app_nil_r.
  - rewrite IH. unfold _add_query.
    destruct (decide (l = x)) as [-> | Hne].
    + rewrite (bool_decide_false (x ∈ ls)) by assumption.
      rewrite bool_decide_true by (rewrite elem_of_cons; tauto).
      now rewrite app_nil_r.
    + destruct (decide (l ∈ ls)).
      * now rewrite !bool_decide_true by (rewrite ?elem_of_cons; tauto).
      * now rewrite !bool_decide_false by (rewrite ?elem_of_cons; tauto).
Qed.

Lemma notify_elements query_record (listeners : gset nat) h l :
  foldl (λ h listener, _add_query listener query_record h) h
        (elements listeners) l =
    h l ++ (if bool_decide (l ∈ listeners) then [query_record] else []).
Proof.
  rewrite notify_loop by apply NoDup_elements.
  destruct (decide (l ∈ listeners)).
  - now rewrite !bool_decide_true by (rewrite ?elem_of_elements; assumption).
  - now rewrite !bool_decide_false by (rewrite ?elem_of_elements; assumption).
Qed.

Lemma notify_histories query_record (self : ServerConnection W) l :
  histories (notify_query_listeners query_record self).2 l =
    histories self l ++
      (if bool_decide (l ∈ _query_listener self) then [query_record]
       else []).
Proof. cbn. apply notify_elements. Qed.

(** A call of the cursor followed, on success, by the notification. *)
Lemma broadcast_call (self self' : ServerConnection W) ev :
  _query_listener self' = _query_listener self →
  _lower_case_parameters self' = _lower_case_parameters self →
  calls self' = calls self ++ [ev] →
  (∀ l, histories self' l =
          histories self l ++
            (if bool_decide (l ∈ _query_listener self)
             then executed_record ev else [])) →
  broadcast self self' [ev].
Proof.
  intros Hl Hp Hc Hh. repeat split; try assumption.
  intros l. rewrite Hh. unfold executed_records. cbn.
  now rewrite app_nil_r.
Qed.

Lemma broadcast_failed_call (self : ServerConnection W) w ev :
  executed_record ev = [] →
  broadcast self (log_call ev (set_conn w self)) [ev].
Proof.
  intros Hev. apply broadcast_call; cbn; try reflexivity.
  intros l. rewrite Hev. case_bool_decide; now rewrite app_nil_r.
Qed.

Lemma broadcast_notified_call (self : ServerConnection W) w ev r :
  executed_record ev = [r] →
  broadcast self
    (notify_query_listeners r (log_call ev (set_conn w self))).2 [ev].
Proof.
  intros Hev. apply broadcast_call; try reflexivity.
  intros l. rewrite notify_histories, Hev. reflexivity.
Qed.

Lemma broadcast_then_set_conn (self self' : ServerConnection W) evs w :
  broadcast self self' evs → broadcast self (set_conn w self') evs.
Proof.
  intros H. rewrite <- (app_nil_r evs).
  eapply broadcast_trans; [exact H | apply broadcast_set_conn].
Qed.

Lemma wrap_exception_eq {A} (func : M A) (self : ServerConnection W) :
  wrap_exception T func self =
    if tr_is_closed T (_conn self) then
      (Raise SERVER_SESSION_HAS_BEEN_CLOSED, self)
    else (translate_result (func self).1, (func self).2).
Proof.
  unfold wrap_exception.
  destruct (tr_is_closed T (_conn self)); [reflexivity |].
  destruct (func self) as [[a | e] self']; [reflexivity |].
  destruct e as [[] | | | | | | |]; reflexivity.
Qed.

Lemma bind_inv {A B} (m : M A) (k : A → M B) (self self' : ServerConnection W)
    (r : Result B) :
  bind m k self = (r, self') →
  (∃ a self1, m self = (Return a, self1) ∧ k a self1 = (r, self'))
  ∨ (∃ e, m self = (Raise e, self') ∧ r = Raise e).
Proof.
  unfold bind. destruct (m self) as [[a | e] self1]; intros H.
  - left. eauto.
  - right. inversion H; subst. eauto.
Qed.

Lemma bind_assoc {A B C} (m : M A) (f : A → M B) (g : B → M C)
    (self : ServerConnection W) :
  bind m (λ a, bind (f a) g) self = bind (bind m f) g self.
Proof. unfold bind. destruct (m self) as [[a | e] self1]; reflexivity. Qed.

(** A statement submitted with [execute], then the notification. *)
Lemma execute_notify text kwargs (self self' : ServerConnection W) r :
  bind (_cursor_execute T text kwargs)
       (λ c, notify_query_listeners (record_of c)) self = (r, self') →
  broadcast self self'
    [EvExecute text kwargs (tr_execute T text kwargs (_conn self)).1]
  ∧ _conn self' = (tr_execute T text kwargs (_conn self)).2
  ∧ match r with
    | Return _ => ∃ c, (tr_execute T text kwargs (_conn self)).1 = inr c
    | Raise e =>
        ∃ ex, (tr_execute T text kwargs (_conn self)).1 = inl ex
              ∧ e = Connector ex
    end.
Proof.
  unfold bind, _cursor_execute.
  destruct (tr_execute T text kwargs (_conn self)) as [[ex | c] w];
    cbn [of_outcome fst snd]; intros H.
  - inversion H; subst.
    split; [now apply broadcast_failed_call | split; [reflexivity | eauto]].
  - pose proof (broadcast_notified_call self w
                  (EvExecute text kwargs (inr c)) (record_of c) eq_refl)
      as Hb.
    rewrite H in Hb. inversion H; subst.
    split; [exact Hb | split; [reflexivity | eauto]].
Qed.

(** The same for [executemany]. *)
Lemma executemany_notify text params (self self' : ServerConnection W) r :
  bind (_cursor_executemany T text params)
       (λ c, notify_query_listeners (record_of c)) self = (r, self') →
  broadcast self self'
    [EvExecuteMany text params (tr_executemany T text params (_conn self)).1]
  ∧ _conn self' = (tr_executemany T text params (_conn self)).2
  ∧ match r with
    | Return _ => ∃ c, (tr_executemany T text params (_conn self)).1 = inr c
    | Raise e =>
        ∃ ex, (tr_executemany T text params (_conn self)).1 = inl ex
              ∧ e = Connector ex
    end.
Proof.
  unfold bind, _cursor_executemany.
  destruct (tr_executemany T text params (_conn self)) as [[ex | c] w];
    cbn [of_outcome fst snd]; intros H.
  - inversion H; subst.
    split; [now apply broadcast_failed_call | split; [reflexivity | eauto]].
  - pose proof (broadcast_notified_call self w
                  (EvExecuteMany text params (inr c)) (record_of c) eq_refl)
      as Hb.
    rewrite H in Hb. inversion H; subst.
    split; [exact Hb | split; [reflexivity | eauto]].
Qed.

(** [run_query]: on a closed connection nothing is submitted; on an open
    one the statement is submitted exactly once, and a result is
    returned only if that call succeeded. *)
Lemma run_query_spec query to_pandas kwargs (self : ServerConnection W) :
  ∃ evs,
    broadcast self (run_query T query to_pandas kwargs self).2 evs
    ∧ (if tr_is_closed T (_conn self) then evs = []
       else evs = [EvExecute query kwargs
                     (tr_execute T query kwargs (_conn self)).1])
    ∧ match (run_query T query to_pandas kwargs self).1 with
      | Return r =>
          ∃ c, evs = [EvExecute query kwargs (inr c)]
               ∧ result_sfqid r = sfqid c
      | Raise _ => True
      end.
Proof.
  destruct (run_query T query to_pandas kwargs self) as [r self'] eqn:Erun.
  cbn [fst snd].
  unfold run_query, wrap_exception in Erun.
  destruct (tr_is_closed T (_conn self)) eqn:Hclosed.
  { inversion Erun; subst. exists [].
    split; [apply broadcast_refl | split; [reflexivity | exact I]]. }
  unfold bind at 1 in Erun. unfold _cursor_execute in Erun.
  destruct (tr_execute T query kwargs (_conn self)) as [[ex | c] w] eqn:E.
  { exists [EvExecute query kwargs (inl ex)]. cbn in Erun.
    destruct ex; inversion Erun; subst;
      (split; [now apply broadcast_failed_call | split; [reflexivity | exact I]]). }
  cbn [of_outcome fst snd] in *.
  exists [EvExecute query kwargs (inr c)].
  pose proof (broadcast_notified_call self w
                (EvExecute query kwargs (inr c)) (record_of c) eq_refl)
    as Hb.
  unfold bind at 1 in Erun.
  destruct (notify_query_listeners (record_of c)
              (log_call (EvExecute query kwargs (inr c)) (set_conn w self)))
    as [[[] | e] self1] eqn:En; [| discriminate En].
  cbn [snd] in Hb. unfold bind, ret, fetchall in Erun.
  destruct to_pandas;
    [destruct (tr_fetch_pandas_all T (_conn self1)) as [[[] | frame] w1];
     cbn [_conn set_conn] in Erun |];
    try (destruct (tr_fetchall T _) as [[[] | rows] w2]);
    cbn in Erun; inversion Erun; subst;
    (split; [now repeat apply broadcast_then_set_conn |]);
    (split; [reflexivity |]); try exact I; eauto.
Qed.

Lemma truthy_tag (query_tag : option string) :
  truthy query_tag = true →
  ∃ a tag, query_tag = Some (String a tag).
Proof. destruct query_tag as [[| a tag] |]; [discriminate | eauto | discriminate]. Qed.

Lemma run_batch_insert_spec query rows kwargs (self : ServerConnection W) :
  ∃ evs,
    broadcast self (run_batch_insert T query rows kwargs self).2 evs
    ∧ (if tr_is_closed T (_conn self) then evs = []
       else if truthy (requested_query_tag T kwargs (_conn self)) then
         ∃ rest,
           evs =
             EvExecute
               (set_query_tag_statement
                  (requested_query_tag T kwargs (_conn self)))
               no_kwargs
               (tr_execute T
                  (set_query_tag_statement
                     (requested_query_tag T kwargs (_conn self)))
                  no_kwargs (_conn self)).1 :: rest
           ∧ Forall (λ ev, submitted ev = query
                           ∨ submitted ev = "alter session unset query_tag")
                    rest
       else
         evs = [EvExecuteMany query rows
                  (tr_executemany T query rows (_conn self)).1])
    ∧ (∀ text params outcome,
         EvExecuteMany text params outcome ∈ evs →
         text = query ∧ params = rows)
    ∧ match (run_batch_insert T query rows kwargs self).1 with
      | Return _ =>
          batch_events query rows
            (requested_query_tag T kwargs (_conn self)) evs
      | Raise _ => True
      end.
Proof.
  destruct (run_batch_insert T query rows kwargs self) as [r self'] eqn:Erun.
  cbn [fst snd].
  unfold run_batch_insert in Erun. rewrite wrap_exception_eq in Erun.
  rewrite map_id in Erun.
  destruct (tr_is_closed T (_conn self)) eqn:Hclosed.
  { inversion Erun; subst. exists [].
    split; [apply broadcast_refl |].
    split; [reflexivity |]. split; [| exact I].
    intros ??? Hin. inversion Hin. }
  set (tagged := requested_query_tag T kwargs (_conn self)) in *.
  match type of Erun with
  | (translate_result (?m self).1, _) = _ =>
      destruct (m self) as [r0 self0] eqn:E0
  end.
  cbn [fst snd] in Erun. inversion Erun; subst r self'. clear Erun.
  destruct (truthy tagged) eqn:Htag.
  - (* tagged *)
    apply bind_inv in E0 as [(? & s1 & E1 & E0) | (e & E1 & ->)];
      apply execute_notify in E1 as (Hb1 & Hc1 & Ho1).
    2:{ eexists. split; [exact Hb1 |]. split; [eauto |].
        split; [| exact I].
        intros ??? Hin. apply list_elem_of_singleton in Hin. discriminate. }
    rewrite bind_assoc in E0.
    apply bind_inv in E0 as [(? & s2 & E2 & E0) | (e & E2 & ->)];
      apply executemany_notify in E2 as (Hb2 & Hc2 & Ho2).
    2:{ eexists. split; [exact (broadcast_trans _ _ _ _ _ Hb1 Hb2) |].
        split; [cbn; eexists; split; [reflexivity |]; cbn; auto |].
        split; [| exact I].
        intros ??? Hin. cbn in Hin.
        apply elem_of_cons in Hin as [Hin | Hin]; [discriminate |].
        apply list_elem_of_singleton in Hin. inversion Hin; subst. eauto. }
    apply execute_notify in E0 as (Hb3 & Hc3 & Ho3).
    eexists.
    split; [exact (broadcast_trans _ _ _ _ _
                     (broadcast_trans _ _ _ _ _ Hb1 Hb2) Hb3) |].
    split; [cbn; eexists; split; [reflexivity |]; cbn; auto |].
    split.
    + intros ??? Hin. cbn in Hin.
      apply elem_of_cons in Hin as [Hin | Hin]; [discriminate |].
      apply elem_of_cons in Hin as [Hin | Hin];
        [inversion Hin; subst; eauto |].
      apply list_elem_of_singleton in Hin. discriminate.
    + destruct r0 as [[] | e]; [| exact I].
      destruct Ho1 as [c1 Ho1], Ho2 as [c2 Ho2], Ho3 as [c3 Ho3].
      destruct (truthy_tag _ Htag) as (a & tag & Htagged).
      unfold batch_events. rewrite Htagged in *.
      exists c1, c2, c3. cbn.
      rewrite <- Ho1, <- Ho2, <- Ho3. reflexivity.
  - (* no tag *)
    unfold bind at 1 in E0. unfold ret at 1 in E0.
    rewrite bind_assoc in E0.
    apply bind_inv in E0 as [(? & s2 & E2 & E0) | (e & E2 & ->)];
      apply executemany_notify in E2 as (Hb2 & Hc2 & Ho2).
    2:{ eexists. split; [exact Hb2 |].
        split; [reflexivity |]. split; [| exact I].
        intros ??? Hin.
        apply list_elem_of_singleton in Hin. inversion Hin; subst. eauto. }
    unfold ret in E0. inversion E0; subst.
    eexists. split; [exact Hb2 |]. split; [reflexivity |].
    split.
    + intros ??? Hin.
      apply list_elem_of_singleton in Hin. inversion Hin; subst. eauto.
    + destruct Ho2 as [c2 Ho2]. unfold batch_events.
      destruct tagged as [[| a tag] |]; try discriminate Htag;
        exists c2; now rewrite <- Ho2.
Qed.

(** The [finally] block submits the post-actions in order, each at most
    once, and all of them when it ends without an exception. *)
Lemma run_post_actions_spec kwargs actions (self : ServerConnection W) :
  ∃ evs,
    broadcast self (run_post_actions T kwargs actions self).2 evs
    ∧ map submitted evs `prefix_of` actions
    ∧ match (run_post_actions T kwargs actions self).1 with
      | Return _ => Forall2 (executes kwargs) actions evs
      | Raise _ => True
      end.
Proof.
  revert self. induction actions as [| action actions IH]; intros self.
  - exists []. cbn. split; [apply broadcast_refl |].
    split; [reflexivity | constructor].
  - cbn [run_post_actions]. unfold bind at 1 2.
    destruct (run_query_spec action false kwargs self)
      as (evs1 & Hb1 & Hshape & Hret).
    destruct (run_query T action false kwargs self) as [[r | e] self1].
    + cbn [fst snd] in *. destruct Hret as (c & -> & _).
      destruct (IH self1) as (evs2 & Hb2 & Hpre & Hall).
      exists ([EvExecute action kwargs (inr c)] ++ evs2).
      split; [exact (broadcast_trans _ _ _ _ _ Hb1 Hb2) |].
      split; [cbn; now apply prefix_cons |].
      destruct (run_post_actions T kwargs actions self1).1; [| exact I].
      constructor; [now exists c | exact Hall].
    + cbn [fst snd] in *. exists evs1. split; [exact Hb1 |].
      split; [| exact I].
      destruct (tr_is_closed T (_conn self)); subst evs1; cbn.
      * apply prefix_nil.
      * apply prefix_cons, prefix_nil.
Qed.

Lemma run_queries_app action_id to_pandas kwargs qs1 qs2 locals
    (self : ServerConnection W) :
  run_queries T action_id to_pandas kwargs (qs1 ++ qs2) locals self =
    bind (run_queries T action_id to_pandas kwargs qs1 locals)
         (run_queries T action_id to_pandas kwargs qs2) self.
Proof.
  revert locals self. induction qs1 as [| q qs1 IH]; intros locals self.
  - reflexivity.
  - cbn [app run_queries]. unfold bind at 1 2 3.
    destruct (loop_body T action_id to_pandas kwargs q locals self)
      as [[locals' | e] self1]; [| reflexivity].
    rewrite IH. reflexivity.
Qed.

(** [get_result_set], phase by phase: the action id, the statement loop,
    the post-actions, and the outcome. *)
Lemma get_result_set_eq plan to_pandas kwargs (self : ServerConnection W) :
  get_result_set T plan to_pandas kwargs self =
    let start := tr_generate_new_action_id T (_conn self) in
    let main :=
      run_queries T start.1 to_pandas kwargs (queries plan) initial_locals
                  (set_conn start.2 self) in
    let cleanup := run_post_actions T kwargs (post_actions plan) main.2 in
    (match cleanup.1, main.1 with
     | Raise e, _ => Raise e
     | Return _, Raise e => Raise e
     | Return _, Return locals =>
         match result locals with
         | None => Raise SQL_LAST_QUERY_RETURN_RESULTSET
         | Some result => Return (data result, result_meta locals)
         end
     end, cleanup.2).
Proof.
  unfold get_result_set, bind, try_finally, _generate_new_action_id.
  destruct (tr_generate_new_action_id T (_conn self)) as [action_id w].
  cbn [fst snd].
  destruct (run_queries T action_id to_pandas kwargs (queries plan)
              initial_locals (set_conn w self)) as [outcome self1].
  cbn [fst snd].
  destruct (run_post_actions T kwargs (post_actions plan) self1)
    as [[[] | e] self2]; cbn [fst snd]; [| reflexivity].
  destruct outcome as [locals | e]; [| reflexivity].
  destruct (result locals); reflexivity.
Qed.

Lemma loop_body_eq action_id to_pandas kwargs query locals
    (self : ServerConnection W) :
  loop_body T action_id to_pandas kwargs query locals self =
    let statement := run_statement T to_pandas kwargs query locals self in
    (match statement.1 with
     | Return locals' =>
         if action_id <? tr_get_last_canceled_id T (_conn statement.2)
         then Raise SERVER_QUERY_IS_CANCELLED
         else Return locals'
     | Raise e => Raise e
     end, statement.2).
Proof.
  unfold loop_body, bind, _get_last_canceled_id.
  destruct (run_statement T to_pandas kwargs query locals self)
    as [[locals' | e] self1]; cbn [fst snd]; [| reflexivity].
  destruct (action_id <? tr_get_last_canceled_id T (_conn self1));
    reflexivity.
Qed.

Lemma run_statement_batch to_pandas kwargs sql rows locals
    (self : ServerConnection W) :
  run_statement T to_pandas kwargs (BatchInsertQuery sql rows) locals self =
    (match (run_batch_insert T sql rows kwargs self).1 with
     | Return _ => Return locals
     | Raise e => Raise e
     end, (run_batch_insert T sql rows kwargs self).2).
Proof.
  cbn [run_statement]. unfold bind, ret.
  destruct (run_batch_insert T sql rows kwargs self) as [[[] | e] self1];
    reflexivity.
Qed.

Lemma run_statement_query to_pandas kwargs sql token locals
    (self : ServerConnection W) :
  run_statement T to_pandas kwargs (Query_ sql token) locals self =
    let executed :=
      run_query T (substitute (placeholders locals) sql) to_pandas kwargs
                self in
    (match executed.1 with
     | Return result =>
         Return {| placeholders :=
                     dict_setitem (placeholders locals) token
                                  (result_sfqid result);
                   result := Some result;
                   result_meta := tr_description T (_conn executed.2) |}
     | Raise e => Raise e
     end, executed.2).
Proof.
  cbn [run_statement]. unfold bind, ret, _cursor_description.
  destruct (run_query T (substitute (placeholders locals) sql) to_pandas
              kwargs self) as [[r | e] self1]; reflexivity.
Qed.



(** A batch insert binds neither a result nor a placeholder. *)
Lemma run_queries_batch_only action_id to_pandas kwargs qs locals
    (self : ServerConnection W) :
  Forall (λ q, result_bearing q = false) qs →
  match (run_queries T action_id to_pandas kwargs qs locals self).1 with
  | Return locals' => locals' = locals
  | Raise _ => True
  end.
Proof.
  intros Hall. revert self.
  induction Hall as [| q qs Hq Hall IH]; intros self.
  - reflexivity.
  - cbn [run_queries]. unfold bind at 1. rewrite loop_body_eq.
    destruct q as [sql token | sql rows]; [discriminate Hq |].
    rewrite run_statement_batch. cbn [fst snd].
    destruct (run_batch_insert T sql rows kwargs self) as [[[] | e] self1];
      cbn [fst snd]; [| exact I].
    destruct (action_id <? tr_get_last_canceled_id T (_conn self1));
      [exact I | apply IH].
Qed.

(** Under the decorator of [snowflake_plan] the body runs as it is; only
    the exception that leaves it is translated. *)
Lemma decorated_get_result_set_eq translate plan to_pandas kwargs
    (self : ServerConnection W) :
  decorated_get_result_set T translate plan to_pandas kwargs self =
    (match (get_result_set T plan to_pandas kwargs self).1 with
     | Return r => Return r
     | Raise e => Raise (translate e)
     end, (get_result_set T plan to_pandas kwargs self).2).
Proof.
  unfold decorated_get_result_set.
  destruct (get_result_set T plan to_pandas kwargs self) as [[r | e] self'];
    reflexivity.
Qed.
End Frames.

(** *** How the statement loop and the [finally] block end *)

Section Exits.
Context {W : Type} (T : Transport W).

(** A [finally] block that raises stopped at the first post-action on
    which [run_query] raised. *)
Lemma run_post_actions_first_failure kwargs actions
    (self self' : ServerConnection W) (e : Exn) :
  run_post_actions T kwargs actions self = (Raise e, self') →
  ∃ evs,
    calls self' = calls self ++ evs
    ∧ first_failure T kwargs actions self e evs self'.
Proof.
  revert self. induction actions as [| action actions IH]; intros self Hrun.
  - discriminate Hrun.
  - cbn [run_post_actions] in Hrun.
    destruct (run_query_spec T action false kwargs self)
      as (evs1 & (_ & _ & Hcalls1 & _) & Hshape & Hret).
    apply bind_inv in Hrun as [(r & self1 & E1 & Hrest) | (e0 & E1 & He)];
      rewrite E1 in Hcalls1, Hret; cbn [fst snd] in Hcalls1, Hret.
    + destruct Hret as (c & -> & _).
      destruct (IH self1 Hrest)
        as (evs2 & Hcalls2 & done & failed & rest & evs_done & mid
            & -> & Hdone & Hall & Hmid & Hfail & ->).
      exists (EvExecute action kwargs (inr c) :: evs_done ++
                (if tr_is_closed T (_conn mid) then []
                 else [EvExecute failed kwargs
                         (tr_execute T failed kwargs (_conn mid)).1])).
      split.
      { rewrite Hcalls2, Hcalls1, <- app_assoc. reflexivity. }
      exists (action :: done), failed, rest,
             (EvExecute action kwargs (inr c) :: evs_done), mid.
      split; [reflexivity |].
      split.
      { cbn [run_post_actions]. unfold bind at 1. rewrite E1. exact Hdone. }
      split; [constructor; [now exists c | exact Hall] |].
      split; [rewrite Hmid, Hcalls1, <- app_assoc; reflexivity |].
      split; [exact Hfail | reflexivity].
    + inversion He; subst e0. exists evs1. split; [exact Hcalls1 |].
      exists [], action, actions, [], self.
      split; [reflexivity |]. split; [reflexivity |].
      split; [constructor |]. split; [now rewrite app_nil_r |].
      split; [exact E1 |].
      destruct (tr_is_closed T (_conn self)); subst evs1; reflexivity.
Qed.

(** The calls of the [finally] block, whichever way it ends. *)
Lemma run_post_actions_exit kwargs actions (self : ServerConnection W) :
  ∃ evs,
    calls (run_post_actions T kwargs actions self).2 = calls self ++ evs
    ∧ map submitted evs `prefix_of` actions
    ∧ match (run_post_actions T kwargs actions self).1 with
      | Return _ => Forall2 (executes kwargs) actions evs
      | Raise e =>
          first_failure T kwargs actions self e evs
                        (run_post_actions T kwargs actions self).2
      end.
Proof.
  destruct (run_post_actions_spec T kwargs actions self)
    as (evs & (_ & _ & Hcalls & _) & Hprefix & Hall).
  exists evs.
  destruct (run_post_actions T kwargs actions self) as [[[] | e] self']
    eqn:Erun; cbn [fst snd] in *.
  - auto.
  - split; [exact Hcalls |]. split; [exact Hprefix |].
    destruct (run_post_actions_first_failure _ _ _ _ _ Erun)
      as (evs' & Hcalls' & Hfirst).
    rewrite Hcalls in Hcalls'. apply app_inv_head in Hcalls'. now subst evs'.
Qed.

End Exits.

(** *** Post-actions *)

(** C1, as the code has it: on every exit of the statement loop (normal
    end, a statement raising, cancellation) the post-actions are run in
    order, each at most once, up to and including the first one on which
    [run_query] raises.  When none raises, every post-action is executed
    exactly once and the exception of the statement loop, if any, is the
    one that surfaces.  When one raises, the post-actions before it were
    each executed once, it was submitted once (on an open connection),
    the remaining ones are not run, and its exception surfaces. *)
Theorem post_actions_on_every_exit {W} (T : Transport W)
    (plan : SnowflakePlan) (to_pandas : bool) (kwargs : Kwargs)
    (self : ServerConnection W) :
  let start := tr_generate_new_action_id T (_conn self) in
  let main :=
    run_queries T start.1 to_pandas kwargs (queries plan) initial_locals
                (set_conn start.2 self) in
  let cleanup := run_post_actions T kwargs (post_actions plan) main.2 in
  let final := get_result_set T plan to_pandas kwargs self in
  ∃ evs,
    calls final.2 = calls main.2 ++ evs
    ∧ map submitted evs `prefix_of` post_actions plan
    ∧ match cleanup.1 with
      | Return _ =>
          Forall2 (executes kwargs) (post_actions plan) evs
          ∧ match main.1 with
            | Raise e => final.1 = Raise e
            | Return _ => True
            end
      | Raise e =>
          final.1 = Raise e
          ∧ first_failure T kwargs (post_actions plan) main.2 e evs final.2
      end.
Proof.
  intros start main cleanup final.
  destruct (run_post_actions_exit T kwargs (post_actions plan) main.2)
    as (evs & Hcalls & Hprefix & Hall).
  exists evs. subst final. rewrite get_result_set_eq. cbn [fst snd].
  fold start. fold main. fold cleanup.
  split; [exact Hcalls |]. split; [exact Hprefix |].
  fold cleanup in Hall.
  destruct cleanup.1 as [[] | e]; [| split; [reflexivity | exact Hall]].
  split; [exact Hall |]. destruct main.1; [exact I | reflexivity].
Qed.

(** The universal reading of C1 fails: when the first of two post-actions
    raises, the second one is never submitted. *)
Lemma failing_post_action_skips_the_rest :
  let plan := {| queries := [Query_ "select 1" "T1"];
                 post_actions := ["drop a"; "drop b"] |} in
  let final :=
    get_result_set scripted plan false no_kwargs
                   (connection (script ["drop a"] []) ∅ ∅) in
  map submitted (calls final.2) = ["select 1"; "drop a"]
  ∧ final.1 = Raise (Connector (ProgrammingError "drop a")).
Proof. vm_compute. split; reflexivity. Qed.

(** C2, as the code has it: when, after a statement has completed, the
    last cancelled id of the session is above the action id taken at the
    start, then no later statement of the plan is submitted: the only
    calls made afterwards are those of the post-actions.  When no
    post-action raises, every post-action is executed exactly once and
    the cancellation error is raised; when one raises, the post-actions
    stop at it and its error is raised instead. *)
Theorem cancellation_stops_the_plan {W} (T : Transport W)
    (plan : SnowflakePlan) (to_pandas : bool) (kwargs : Kwargs)
    (self : ServerConnection W)
    (done : list Query) (query : Query) (rest : list Query)
    (action_id : Z) (w : W) (locals1 locals2 : Locals)
    (self1 self2 : ServerConnection W) :
  queries plan = done ++ query :: rest →
  tr_generate_new_action_id T (_conn self) = (action_id, w) →
  run_queries T action_id to_pandas kwargs done initial_locals
              (set_conn w self) = (Return locals1, self1) →
  run_statement T to_pandas kwargs query locals1 self1 =
    (Return locals2, self2) →
  action_id < tr_get_last_canceled_id T (_conn self2) →
  let cleanup := run_post_actions T kwargs (post_actions plan) self2 in
  get_result_set T plan to_pandas kwargs self =
    (match cleanup.1 with
     | Return _ => Raise SERVER_QUERY_IS_CANCELLED
     | Raise e => Raise e
     end, cleanup.2)
  ∧ ∃ evs,
      calls cleanup.2 = calls self2 ++ evs
      ∧ map submitted evs `prefix_of` post_actions plan
      ∧ match cleanup.1 with
        | Return _ => Forall2 (executes kwargs) (post_actions plan) evs
        | Raise e =>
            first_failure T kwargs (post_actions plan) self2 e evs cleanup.2
        end.
Proof.
  intros Hplan Hstart Hdone Hstatement Hcancel cleanup.
  assert (Hmain :
    run_queries T action_id to_pandas kwargs (queries plan) initial_locals
                (set_conn w self) = (Raise SERVER_QUERY_IS_CANCELLED, self2)).
  { rewrite Hplan, run_queries_app. unfold bind at 1. rewrite Hdone.
    cbn [run_queries]. unfold bind at 1.
    rewrite loop_body_eq, Hstatement. cbn [fst snd].
    apply Z.ltb_lt in Hcancel. now rewrite Hcancel. }
  split.
  - rewrite get_result_set_eq, Hstart. cbn [fst snd].
    rewrite Hmain. cbn [fst snd]. fold cleanup.
    destruct cleanup.1 as [[] | e]; reflexivity.
  - exact (run_post_actions_exit T kwargs (post_actions plan) self2).
Qed.

(** The theorem at work, twice: the first of two statements triggers the
    cancellation, the second one is not submitted, the post-action is;
    and the same with a post-action that raises. *)
Lemma cancellation_stops_the_plan_witness :
  let queries := [Query_ "select 1" "T1"; Query_ "select 2" "T2"] in
  let final :=
    get_result_set scripted
      {| queries := queries; post_actions := ["drop a"] |}
      false no_kwargs (connection (script [] ["select 1"]) ∅ ∅) in
  let failed :=
    get_result_set scripted
      {| queries := queries; post_actions := ["drop a"; "drop b"] |}
      false no_kwargs (connection (script ["drop a"] ["select 1"]) ∅ ∅) in
  (final.1 = Raise SERVER_QUERY_IS_CANCELLED
   ∧ map submitted (calls final.2) = ["select 1"; "drop a"])
  ∧ (failed.1 = Raise (Connector (ProgrammingError "drop a"))
     ∧ map submitted (calls failed.2) = ["select 1"; "drop a"]).
Proof.
  cbv zeta. split.
  - destruct (cancellation_stops_the_plan scripted
                {| queries := [Query_ "select 1" "T1"; Query_ "select 2" "T2"];
                   post_actions := ["drop a"] |}
                false no_kwargs (connection (script [] ["select 1"]) ∅ ∅)
                [] (Query_ "select 1" "T1") [Query_ "select 2" "T2"]
                1 _ initial_locals _ _ _
                eq_refl eq_refl eq_refl eq_refl eq_refl)
      as [Hfinal _].
    rewrite Hfinal. split; vm_compute; reflexivity.
  - destruct (cancellation_stops_the_plan scripted
                {| queries := [Query_ "select 1" "T1"; Query_ "select 2" "T2"];
                   post_actions := ["drop a"; "drop b"] |}
                false no_kwargs
                (connection (script ["drop a"] ["select 1"]) ∅ ∅)
                [] (Query_ "select 1" "T1") [Query_ "select 2" "T2"]
                1 _ initial_locals _ _ _
                eq_refl eq_refl eq_refl eq_refl eq_refl)
      as [Hfinal _].
    rewrite Hfinal. split; vm_compute; reflexivity.
Defined.

(** The universal reading of C2 fails: with a post-action that raises,
    the error raised after a cancellation is that of the post-action. *)
Lemma cancellation_with_failing_post_action :
  let plan := {| queries := [Query_ "select 1" "T1"; Query_ "select 2" "T2"];
                 post_actions := ["drop a"; "drop b"] |} in
  let final :=
    get_result_set scripted plan false no_kwargs
                   (connection (script ["drop a"] ["select 1"]) ∅ ∅) in
  final.1 = Raise (Connector (ProgrammingError "drop a"))
  ∧ map submitted (calls final.2) = ["select 1"; "drop a"]
  ∧ tr_get_last_canceled_id scripted (_conn final.2) = 2.
Proof. vm_compute. repeat split; reflexivity. Qed.

(** *** Plans without a result *)

(** C5, as the code has it: a plan with no result-bearing statement never
    returns a result.  It raises the empty-result error when the
    statement loop ends without an exception and no post-action raises,
    and then every post-action has been executed, exactly once, before;
    otherwise the exception of the post-action, or else that of the
    statement loop, is raised. *)
Theorem empty_result_after_post_actions {W} (T : Transport W)
    (plan : SnowflakePlan) (to_pandas : bool) (kwargs : Kwargs)
    (self : ServerConnection W) :
  Forall (λ q, result_bearing q = false) (queries plan) →
  let start := tr_generate_new_action_id T (_conn self) in
  let main :=
    run_queries T start.1 to_pandas kwargs (queries plan) initial_locals
                (set_conn start.2 self) in
  let cleanup := run_post_actions T kwargs (post_actions plan) main.2 in
  let final := get_result_set T plan to_pandas kwargs self in
  final.1 =
    match cleanup.1, main.1 with
    | Raise e, _ => Raise e
    | Return _, Raise e => Raise e
    | Return _, Return _ => Raise SQL_LAST_QUERY_RETURN_RESULTSET
    end
  ∧ match cleanup.1 with
    | Return _ =>
        ∃ evs,
          calls final.2 = calls main.2 ++ evs
          ∧ Forall2 (executes kwargs) (post_actions plan) evs
    | Raise _ => True
    end.
Proof.
  intros Hbatch start main cleanup final.
  pose proof (run_queries_batch_only T start.1 to_pandas kwargs (queries plan)
                initial_locals (set_conn start.2 self) Hbatch) as Hlocals.
  destruct (run_post_actions_spec T kwargs (post_actions plan) main.2)
    as (evs & (_ & _ & Hcalls & _) & _ & Hall).
  fold main in Hlocals. fold cleanup in Hall.
  subst final. rewrite get_result_set_eq. cbn [fst snd].
  fold start. fold main. fold cleanup.
  destruct cleanup.1 as [[] | e]; [| split; [reflexivity | exact I]].
  split; [| eauto].
  destruct main.1 as [locals | e]; [| reflexivity].
  now rewrite Hlocals.
Qed.

(** The theorem at work: a plan of post-actions only. *)
Lemma empty_result_after_post_actions_witness :
  let plan := {| queries := []; post_actions := ["drop a"; "drop b"] |} in
  let final :=
    get_result_set scripted plan false no_kwargs (connection quiet ∅ ∅) in
  final.1 = Raise SQL_LAST_QUERY_RETURN_RESULTSET
  ∧ map submitted (calls final.2) = ["drop a"; "drop b"].
Proof.
  cbv zeta.
  destruct (empty_result_after_post_actions scripted
              {| queries := []; post_actions := ["drop a"; "drop b"] |}
              false no_kwargs (connection quiet ∅ ∅) ltac:(constructor))
    as [Hfinal _].
  rewrite Hfinal. split; vm_compute; reflexivity.
Defined.

(** The universal reading of C5 fails: in a plan of post-actions only, a
    post-action that raises gives its own error, not the empty-result
    one. *)
Lemma empty_plan_with_failing_post_action :
  let plan := {| queries := []; post_actions := ["drop a"] |} in
  let final :=
    get_result_set scripted plan false no_kwargs
                   (connection (script ["drop a"] []) ∅ ∅) in
  final.1 = Raise (Connector (ProgrammingError "drop a")).
Proof. vm_compute. reflexivity. Qed.




(** *** Placeholders *)

(** C3, as the code has it: the statements before [query] having
    completed, a statement that is not a batch insert is submitted with
    the bindings recorded so far applied to its text, one after the
    other: for each binding every occurrence of the token is replaced by
    the id and no other text is altered; when it completes, its own token
    is bound to the id of its cursor.  A batch insert is submitted with
    its text and rows as they are, and binds nothing. *)
Theorem placeholder_substitution {W} (T : Transport W)
    (action_id : Z) (to_pandas : bool) (kwargs : Kwargs)
    (done : list Query) (query : Query) (rest : list Query)
    (locals0 locals1 : Locals) (self0 self1 : ServerConnection W) :
  run_queries T action_id to_pandas kwargs done locals0 self0 =
    (Return locals1, self1) →
  tr_is_closed T (_conn self1) = false →
  run_queries T action_id to_pandas kwargs (done ++ query :: rest)
              locals0 self0 =
    bind (loop_body T action_id to_pandas kwargs query locals1)
         (run_queries T action_id to_pandas kwargs rest) self1
  ∧ let statement := run_statement T to_pandas kwargs query locals1 self1 in
    match query with
    | Query_ sql token =>
        ∃ outcome,
          calls statement.2 =
            calls self1 ++
              [EvExecute (substitute (placeholders locals1) sql) kwargs
                         outcome]
          ∧ (Forall (λ binding, binding.1 ≠ EmptyString)
                    (placeholders locals1) →
             substituted (placeholders locals1) sql
                         (substitute (placeholders locals1) sql))
          ∧ match statement.1 with
            | Return locals2 =>
                ∃ cursor,
                  outcome = inr cursor
                  ∧ placeholders locals2 =
                      dict_setitem (placeholders locals1) token
                                   (sfqid cursor)
            | Raise _ => True
            end
    | BatchInsertQuery sql rows =>
        ∃ evs,
          calls statement.2 = calls self1 ++ evs
          ∧ (∀ text params outcome,
               EvExecuteMany text params outcome ∈ evs →
               text = sql ∧ params = rows)
          ∧ match statement.1 with
            | Return locals2 =>
                locals2 = locals1
                ∧ ∃ cursor, EvExecuteMany sql rows (inr cursor) ∈ evs
            | Raise _ => True
            end
    end.
Proof.
  intros Hdone Hopen. split.
  { rewrite run_queries_app. unfold bind at 1. now rewrite Hdone. }
  destruct query as [sql token | sql rows]; cbv zeta.
  - rewrite run_statement_query. cbn [fst snd].
    destruct (run_query_spec T (substitute (placeholders locals1) sql)
                to_pandas kwargs self1)
      as (evs & (_ & _ & Hcalls & _) & Hshape & Hret).
    rewrite Hopen in Hshape. subst evs. eexists.
    split; [exact Hcalls |].
    split; [apply substitute_substituted |].
    destruct (run_query T (substitute (placeholders locals1) sql) to_pandas
                kwargs self1).1 as [r | e]; [| exact I].
    destruct Hret as (c & Hev & Hid). inversion Hev as [Hc].
    exists c. cbn [placeholders]. now rewrite Hid.
  - rewrite run_statement_batch. cbn [fst snd].
    destruct (run_batch_insert_spec T sql rows kwargs self1)
      as (evs & (_ & _ & Hcalls & _) & _ & Hmany & Hret).
    exists evs. split; [exact Hcalls |]. split; [exact Hmany |].
    destruct (run_batch_insert T sql rows kwargs self1).1 as [[] | e];
      [| exact I].
    split; [reflexivity |]. unfold batch_events in Hret.
    destruct (requested_query_tag T kwargs (_conn self1)) as [[| a tag] |].
    + destruct Hret as (c2 & ->). exists c2. apply list_elem_of_singleton.
      reflexivity.
    + destruct Hret as (c1 & c2 & c3 & ->). exists c2.
      apply elem_of_cons. right. apply elem_of_cons. now left.
    + destruct Hret as (c2 & ->). exists c2. apply list_elem_of_singleton.
      reflexivity.
Qed.

(** The theorem at work: the first statement returns the id ["123"], and
    the second one is submitted with both occurrences of its token
    replaced. *)
Lemma placeholder_substitution_witness :
  let first := Query_ "create temporary table t as select 1" "T1" in
  let second := Query_ "select * from table(result_scan('T1')) -- T1" "T2" in
  map submitted
      (calls (run_queries scripted 1 false no_kwargs ([first] ++ second :: [])
                          initial_locals (connection quiet ∅ ∅)).2) =
    ["create temporary table t as select 1";
     "select * from table(result_scan('123')) -- 123"].
Proof.
  cbv zeta.
  destruct (placeholder_substitution scripted 1 false no_kwargs
              [Query_ "create temporary table t as select 1" "T1"]
              (Query_ "select * from table(result_scan('T1')) -- T1" "T2")
              [] initial_locals _ (connection quiet ∅ ∅) _
              eq_refl eq_refl) as [Hloop _].
  rewrite Hloop. vm_compute. reflexivity.
Defined.

(** C3 fails for batch inserts: the token of an earlier statement stays
    in the text of a batch insert, although replacing it would change
    the text. *)
Lemma batch_insert_is_not_substituted :
  let plan :=
    {| queries := [Query_ "select 1" "T1";
                   BatchInsertQuery "insert into t select 'T1', ?" [[VInt 1]]];
       post_actions := [] |} in
  let final :=
    get_result_set scripted plan false no_kwargs (connection quiet ∅ ∅) in
  map submitted (calls final.2) = ["select 1"; "insert into t select 'T1', ?"]
  ∧ str_replace "insert into t select 'T1', ?" "T1" "123" =
      "insert into t select '123', ?"
  ∧ map executed_record (calls final.2) =
      [[("123", "select 1")]; [("124", "insert into t select 'T1', ?")]].
Proof. vm_compute. repeat split; reflexivity. Qed.

(** *** Listeners *)



(** *** Session guard *)

Section Guarded.
Context {W : Type} (T : Transport W) (E : Environment W).
Variables max_precision max_scale : Z.

(** On an open connection, what leaves [run_query]: the exception of the
    call or of the row fetch through the guard, and the fetch-failed
    error of its own handler around the tabular fetch. *)
Lemma run_query_outcome query to_pandas kwargs (self : ServerConnection W) :
  tr_is_closed T (_conn self) = false →
  (run_query T query to_pandas kwargs self).1 =
    match tr_execute T query kwargs (_conn self) with
    | (inl ex, _) => Raise (guard_translation (Connector ex))
    | (inr c, w) =>
        let rows_of w' :=
          match (tr_fetchall T w').1 with
          | inl ex => Raise (guard_translation (Connector ex))
          | inr rows =>
              Return {| data := RowList rows; result_sfqid := sfqid c |}
          end in
        if to_pandas then
          match tr_fetch_pandas_all T w with
          | (inr frame, _) =>
              Return {| data := PandasDataFrame frame;
                        result_sfqid := sfqid c |}
          | (inl (NotSupportedError _), w') => rows_of w'
          | (inl ex, _) => Raise (SERVER_FAILED_FETCH_PANDAS (str_of ex))
          end
        else rows_of w
    end.
Proof.
  intros Hopen. unfold run_query. rewrite wrap_exception_eq, Hopen.
  cbn [fst]. unfold bind at 1. unfold _cursor_execute.
  destruct (tr_execute T query kwargs (_conn self)) as [[ex | c] w];
    cbn [of_outcome]; [reflexivity |].
  unfold bind, notify_query_listeners, ret, fetchall.
  cbv beta iota delta [_conn set_histories log_call set_conn].
  destruct to_pandas.
  - destruct (tr_fetch_pandas_all T w) as [[[] | frame] w1]; cbn [_conn];
      try reflexivity.
    destruct (tr_fetchall T w1) as [[ex | rows] w2]; reflexivity.
  - destruct (tr_fetchall T w) as [[ex | rows] w2]; reflexivity.
Qed.

(** On an open connection, an exception that leaves [run_batch_insert]
    is that of the last call it made, through the guard. *)
Lemma run_batch_insert_failure query rows kwargs (self : ServerConnection W)
    (e : Exn) :
  tr_is_closed T (_conn self) = false →
  (run_batch_insert T query rows kwargs self).1 = Raise e →
  ∃ evs ev ex,
    calls (run_batch_insert T query rows kwargs self).2 =
      calls self ++ evs ++ [ev]
    ∧ failure_of ev = Some ex
    ∧ e = guard_translation (Connector ex).
Proof.
  intros Hopen.
  destruct (run_batch_insert T query rows kwargs self) as [r self'] eqn:Erun.
  cbn [fst snd]. intros ->.
  unfold run_batch_insert in Erun.
  rewrite wrap_exception_eq, Hopen, map_id in Erun.
  set (tagged := requested_query_tag T kwargs (_conn self)) in *.
  match type of Erun with
  | (translate_result (?m self).1, _) = _ =>
      destruct (m self) as [r0 self0] eqn:E0
  end.
  cbn [fst snd] in Erun. inversion Erun as [[Hr Hs]]. subst self0.
  clear Erun.
  assert (Hlast : ∀ (s s' : ServerConnection W) evs ev ex0,
            calls s = calls self ++ evs →
            calls s' = calls s ++ [ev] →
            failure_of ev = Some ex0 →
            translate_result (Raise (A:=unit) (Connector ex0)) = Raise e →
            ∃ evs ev ex,
              calls s' = calls self ++ evs ++ [ev]
              ∧ failure_of ev = Some ex
              ∧ e = guard_translation (Connector ex)).
  { intros s s' evs ev ex0 Hs Hs' Hev He.
    exists evs, ev, ex0. rewrite Hs', Hs, <- app_assoc.
    split; [reflexivity |]. split; [exact Hev |].
    cbn in He. now inversion He. }
  assert (Hself : calls self = calls self ++ []) by now rewrite app_nil_r.
  destruct (truthy tagged) eqn:Htag.
  - apply bind_inv in E0 as [(? & s1 & E1 & E0) | (e1 & E1 & ->)];
      apply execute_notify in E1 as ((_ & _ & Hc1 & _) & _ & Ho1).
    2:{ destruct Ho1 as (ex1 & Hex1 & ->). rewrite Hex1 in Hc1.
        exact (Hlast _ _ _ _ _ Hself Hc1 eq_refl Hr). }
    rewrite bind_assoc in E0.
    apply bind_inv in E0 as [(? & s2 & E2 & E0) | (e2 & E2 & ->)];
      apply executemany_notify in E2 as ((_ & _ & Hc2 & _) & _ & Ho2).
    2:{ destruct Ho2 as (ex2 & Hex2 & ->). rewrite Hex2 in Hc2.
        exact (Hlast _ _ _ _ _ Hc1 Hc2 eq_refl Hr). }
    apply execute_notify in E0 as ((_ & _ & Hc3 & _) & _ & Ho3).
    destruct r0 as [[] | e3]; [discriminate Hr |].
    destruct Ho3 as (ex3 & Hex3 & ->). rewrite Hex3 in Hc3.
    rewrite Hc1, <- app_assoc in Hc2.
    exact (Hlast _ _ _ _ _ Hc2 Hc3 eq_refl Hr).
  - unfold bind at 1 in E0. unfold ret at 1 in E0.
    rewrite bind_assoc in E0.
    apply bind_inv in E0 as [(? & s2 & E2 & E0) | (e2 & E2 & ->)];
      apply executemany_notify in E2 as ((_ & _ & Hc2 & _) & _ & Ho2).
    2:{ destruct Ho2 as (ex2 & Hex2 & ->). rewrite Hex2 in Hc2.
        exact (Hlast _ _ _ _ _ Hself Hc2 eq_refl Hr). }
    unfold ret in E0. inversion E0; subst. discriminate Hr.
Qed.

(** The type mapper and the conversion of the columns raise Python
    exceptions only, which the guard leaves as they are. *)
Lemma convert_error_kept (meta : list ResultMetadata) :
  translate_result
    (convert_result_meta_to_attribute E max_precision max_scale meta) =
  convert_result_meta_to_attribute E max_precision max_scale meta.
Proof.
  induction meta as [| column meta IH];
    cbn [convert_result_meta_to_attribute]; [reflexivity |].
  assert (Hcolumn :
    translate_result (column_data_type E max_precision max_scale column) =
    column_data_type E max_precision max_scale column).
  { unfold column_data_type.
    destruct (FIELD_ID_TO_NAME E (type_code column)) as [type_name |];
      [| reflexivity].
    unfold _get_data_type.
    repeat match goal with
           | |- context [if ?b then _ else _] => destruct b
           end; reflexivity. }
  destruct (column_data_type E max_precision max_scale column)
    as [data_type | e];
    [| cbn in *; inversion Hcolumn as [He]; now rewrite !He].
  destruct (convert_result_meta_to_attribute E max_precision max_scale meta)
    as [attributes | e]; [reflexivity |].
  cbn in *. inversion IH as [He]. now rewrite !He.
Qed.

(** On an open connection, what leaves [get_result_attributes]. *)
Lemma get_result_attributes_outcome query (self : ServerConnection W) :
  tr_is_closed T (_conn self) = false →
  (get_result_attributes T E max_precision max_scale query self).1 =
    if String.prefix "put" (str_lower E (str_strip E query))
       || String.prefix "get" (str_lower E (str_strip E query))
    then Return []
    else
      match (env_describe E query (_conn self)).1 with
      | inl ex => Raise (guard_translation (Connector ex))
      | inr meta =>
          convert_result_meta_to_attribute E max_precision max_scale meta
      end.
Proof.
  intros Hopen. unfold get_result_attributes.
  rewrite wrap_exception_eq, Hopen. cbn [fst].
  destruct (String.prefix "put" (str_lower E (str_strip E query))
            || String.prefix "get" (str_lower E (str_strip E query)));
    [reflexivity |].
  destruct (env_describe E query (_conn self)) as [[ex | meta] w];
    cbn [fst]; [reflexivity | apply convert_error_kept].
Qed.
End Guarded.

(** C7, as the code has it.  An operation under [wrap_exception]
    ([get_session_id], [get_parameter_value], [get_result_attributes],
    [run_query] and [run_batch_insert] among them) first checks that the
    connection is open and raises the session-closed error, without
    running, when it is closed.  On an open connection an exception that
    leaves the body of the operation leaves the operation unchanged,
    except a re-authentication request, which becomes the
    session-expired error: [get_session_id] and [get_parameter_value]
    return; [get_result_attributes] raises the translated exception of
    [describe], or the exception of the conversion as it is; [run_query]
    raises the translated exception of the call or of the row fetch,
    while an error of the tabular fetch is handled by its body before
    the guard sees it (the unsupported kind falls back to the row
    fetch, any other one, a re-authentication request included, becomes
    the fetch-failed error); [run_batch_insert] raises the translated
    exception of the last call it made.  The accessors of the default
    database and schema, [close] and the liveness check carry no guard:
    they return on a closed connection as on an open one. *)
Theorem session_guard {W} (T : Transport W) (E : Environment W)
    (max_precision max_scale : Z) (self : ServerConnection W) :
  (∀ (A : Type) (func : M A),
     wrap_exception T func self =
       if tr_is_closed T (_conn self) then
         (Raise SERVER_SESSION_HAS_BEEN_CLOSED, self)
       else (translate_result (func self).1, (func self).2))
  ∧ (tr_is_closed T (_conn self) = true →
     get_session_id T self = (Raise SERVER_SESSION_HAS_BEEN_CLOSED, self)
     ∧ (∀ parameter_name,
          get_parameter_value T E parameter_name self =
            (Raise SERVER_SESSION_HAS_BEEN_CLOSED, self))
     ∧ (∀ query,
          get_result_attributes T E max_precision max_scale query self =
            (Raise SERVER_SESSION_HAS_BEEN_CLOSED, self))
     ∧ (∀ query to_pandas kwargs,
          run_query T query to_pandas kwargs self =
            (Raise SERVER_SESSION_HAS_BEEN_CLOSED, self))
     ∧ (∀ query rows kwargs,
          run_batch_insert T query rows kwargs self =
            (Raise SERVER_SESSION_HAS_BEEN_CLOSED, self)))
  ∧ (tr_is_closed T (_conn self) = false →
     get_session_id T self = (Return (tr_session_id T (_conn self)), self)
     ∧ (∀ parameter_name,
          get_parameter_value T E parameter_name self =
            (Return (env_session_parameters E (_conn self)
                       !! str_upper E parameter_name), self))
     ∧ (∀ query,
          (get_result_attributes T E max_precision max_scale query self).1 =
            if String.prefix "put" (str_lower E (str_strip E query))
               || String.prefix "get" (str_lower E (str_strip E query))
            then Return []
            else
              match (env_describe E query (_conn self)).1 with
              | inl ex => Raise (guard_translation (Connector ex))
              | inr meta =>
                  convert_result_meta_to_attribute E max_precision max_scale
                                                   meta
              end)
     ∧ (∀ query to_pandas kwargs,
          (run_query T query to_pandas kwargs self).1 =
            match tr_execute T query kwargs (_conn self) with
            | (inl ex, _) => Raise (guard_translation (Connector ex))
            | (inr c, w) =>
                let rows_of w' :=
                  match (tr_fetchall T w').1 with
                  | inl ex => Raise (guard_translation (Connector ex))
                  | inr rows =>
                      Return {| data := RowList rows;
                                result_sfqid := sfqid c |}
                  end in
                if to_pandas then
                  match tr_fetch_pandas_all T w with
                  | (inr frame, _) =>
                      Return {| data := PandasDataFrame frame;
                                result_sfqid := sfqid c |}
                  | (inl (NotSupportedError _), w') => rows_of w'
                  | (inl ex, _) =>
                      Raise (SERVER_FAILED_FETCH_PANDAS (str_of ex))
                  end
                else rows_of w
            end)
     ∧ (∀ query rows kwargs e,
          (run_batch_insert T query rows kwargs self).1 = Raise e →
          ∃ evs ev ex,
            calls (run_batch_insert T query rows kwargs self).2 =
              calls self ++ evs ++ [ev]
            ∧ failure_of ev = Some ex
            ∧ e = guard_translation (Connector ex)))
  ∧ get_default_database T self =
      (Return (tr_quote_name T <$> _lower_case_parameters self !! "database"),
       self)
  ∧ get_default_schema T self =
      (Return (tr_quote_name T <$> _lower_case_parameters self !! "schema"),
       self)
  ∧ is_closed T self = (Return (tr_is_closed T (_conn self)), self)
  ∧ close T self = (Return (), set_conn (tr_close T (_conn self)) self).
Proof.
  split; [intros A func; apply wrap_exception_eq |].
  split.
  { intros Hclosed.
    unfold get_session_id, get_parameter_value, get_result_attributes,
      run_query, run_batch_insert.
    repeat split; intros; rewrite wrap_exception_eq, Hclosed; reflexivity. }
  split; [| repeat split].
  intros Hopen.
  split.
  { unfold get_session_id. now rewrite wrap_exception_eq, Hopen. }
  split.
  { intros parameter_name. unfold get_parameter_value.
    now rewrite wrap_exception_eq, Hopen. }
  split; [intros query; now apply get_result_attributes_outcome |].
  split; [intros query to_pandas kwargs; now apply run_query_outcome |].
  intros query rows kwargs e. now apply run_batch_insert_failure.
Qed.

(** The theorem at work: on a closed connection; on an open one whose
    row fetch asks for a new authentication, which leaves as the
    session-expired error; and on an open one whose tabular fetch asks
    for it, which leaves as the fetch-failed error. *)
Lemma session_guard_witness :
  let environment := scripted_environment (λ _, inr []) in
  let request := ReauthenticationRequest "token expired" in
  let shut := connection (closed_session quiet) ∅ ∅ in
  let rows_expire := connection (with_fetches None (Some request) quiet) ∅ ∅ in
  let frame_expires :=
    connection (with_fetches (Some request) None quiet) ∅ ∅ in
  run_query scripted "select 1" false no_kwargs shut =
    (Raise SERVER_SESSION_HAS_BEEN_CLOSED, shut)
  ∧ (run_query scripted "select 1" false no_kwargs rows_expire).1 =
      Raise (SERVER_SESSION_EXPIRED "token expired")
  ∧ (run_query scripted "select 1" true no_kwargs frame_expires).1 =
      Raise (SERVER_FAILED_FETCH_PANDAS "token expired")
  ∧ get_session_id scripted (connection quiet ∅ ∅) =
      (Return 7, connection quiet ∅ ∅).
Proof.
  cbv zeta. split; [| split; [| split]].
  - destruct (session_guard scripted (scripted_environment (λ _, inr []))
                38 37 (connection (closed_session quiet) ∅ ∅))
      as (_ & Hclosed & _).
    destruct (Hclosed eq_refl) as (_ & _ & _ & Hquery & _). apply Hquery.
  - destruct (session_guard scripted (scripted_environment (λ _, inr []))
                38 37
                (connection
                   (with_fetches None
                      (Some (ReauthenticationRequest "token expired")) quiet)
                   ∅ ∅))
      as (_ & _ & Hopen & _).
    destruct (Hopen eq_refl) as (_ & _ & _ & Hquery & _).
    rewrite Hquery. reflexivity.
  - destruct (session_guard scripted (scripted_environment (λ _, inr []))
                38 37
                (connection
                   (with_fetches
                      (Some (ReauthenticationRequest "token expired")) None
                      quiet)
                   ∅ ∅))
      as (_ & _ & Hopen & _).
    destruct (Hopen eq_refl) as (_ & _ & _ & Hquery & _).
    rewrite Hquery. reflexivity.
  - destruct (session_guard scripted (scripted_environment (λ _, inr []))
                38 37 (connection quiet ∅ ∅)) as (_ & _ & Hopen & _).
    destruct (Hopen eq_refl) as (Hid & _). exact Hid.
Defined.

(** C7 fails for the accessors without a guard: on a closed connection
    the default database is returned, no session-closed error is
    raised. *)
Lemma default_database_of_closed_session :
  let shut :=
    connection (closed_session quiet) {[ "database" := "db" ]} ∅ in
  tr_is_closed scripted (_conn shut) = true
  ∧ (get_default_database scripted shut).1 = Return (Some "<db>").
Proof. vm_compute. split; reflexivity. Qed.

(** *** Fetching *)

(** C8, as the code has it: after the statement has been executed, a
    tabular fetch that fails as unsupported is followed by a row fetch,
    whose result is returned and whose exception, if it fails, leaves as
    it is (under the session guard); the fetch-failed error is raised
    exactly when the tabular fetch itself fails in any other way. *)
Theorem pandas_fetch_fallback {W} (T : Transport W) (query : string)
    (kwargs : Kwargs) (self : ServerConnection W) (cursor : Cursor) (w : W) :
  tr_is_closed T (_conn self) = false →
  tr_execute T query kwargs (_conn self) = (inr cursor, w) →
  let tabular := tr_fetch_pandas_all T w in
  let outcome := (run_query T query true kwargs self).1 in
  outcome =
    match tabular.1 with
    | inr frame =>
        Return {| data := PandasDataFrame frame;
                  result_sfqid := sfqid cursor |}
    | inl (NotSupportedError _) =>
        match (tr_fetchall T tabular.2).1 with
        | inr rows =>
            Return {| data := RowList rows; result_sfqid := sfqid cursor |}
        | inl ex => Raise (guard_translation (Connector ex))
        end
    | inl ex => Raise (SERVER_FAILED_FETCH_PANDAS (str_of ex))
    end
  ∧ ((∃ msg, outcome = Raise (SERVER_FAILED_FETCH_PANDAS msg))
     ↔ (∃ ex, tabular.1 = inl ex ∧ ∀ msg, ex ≠ NotSupportedError msg)).
Proof.
  intros Hopen Hex tabular outcome.
  assert (Houtcome : outcome =
    match tabular.1 with
    | inr frame =>
        Return {| data := PandasDataFrame frame;
                  result_sfqid := sfqid cursor |}
    | inl (NotSupportedError _) =>
        match (tr_fetchall T tabular.2).1 with
        | inr rows =>
            Return {| data := RowList rows; result_sfqid := sfqid cursor |}
        | inl ex => Raise (guard_translation (Connector ex))
        end
    | inl ex => Raise (SERVER_FAILED_FETCH_PANDAS (str_of ex))
    end).
  { subst outcome tabular. unfold run_query.
    rewrite wrap_exception_eq, Hopen. cbn [fst].
    unfold bind at 1. unfold _cursor_execute. rewrite Hex.
    cbn [of_outcome]. unfold bind at 1.
    cbn [notify_query_listeners]. unfold bind, ret, fetchall.
    cbn [_conn set_histories log_call set_conn].
    destruct (tr_fetch_pandas_all T w) as [[[] | frame] w1]; cbn [fst snd];
      try reflexivity.
    cbn [_conn set_conn].
    destruct (tr_fetchall T w1) as [[[] | rows] w2]; reflexivity. }
  split; [exact Houtcome |].
  rewrite Houtcome. clear Houtcome. split.
  - intros [msg Hmsg].
    destruct tabular.1 as [ex | frame]; [| discriminate Hmsg].
    exists ex. split; [reflexivity |]. intros msg' ->.
    destruct (tr_fetchall T tabular.2).1 as [[] | rows]; discriminate Hmsg.
  - intros (ex & -> & Hne).
    destruct ex; eauto. now destruct (Hne msg).
Qed.

(** The theorem at work: the tabular fetch of a [show] statement is not
    supported, and the rows are returned instead. *)
Lemma pandas_fetch_fallback_witness :
  let self :=
    connection (with_fetches (Some (NotSupportedError "not a select")) None
                             quiet) ∅ ∅ in
  (run_query scripted "show tables" true no_kwargs self).1 =
    Return {| data := RowList [[VInt 1]]; result_sfqid := "123" |}.
Proof.
  cbv zeta.
  destruct (pandas_fetch_fallback scripted "show tables" no_kwargs
              (connection (with_fetches (Some (NotSupportedError "not a select"))
                                        None quiet) ∅ ∅)
              _ _ eq_refl eq_refl) as [Houtcome _].
  rewrite Houtcome. reflexivity.
Defined.

(** C8 fails for the row fetch: when the fallback fails too, its own
    exception is raised, not the fetch-failed error. *)
Lemma failing_fallback_is_not_wrapped :
  let self :=
    connection (with_fetches (Some (NotSupportedError "not a select"))
                             (Some (OtherError "connection reset")) quiet)
               ∅ ∅ in
  (run_query scripted "show tables" true no_kwargs self).1 =
    Raise (Connector (OtherError "connection reset")).
Proof. vm_compute. reflexivity. Qed.

(** *** Query tag *)

(** C10: outside a stored procedure, with a connection that is open, the
    tag statement of [run_batch_insert] is the text
    [alter session set query_tag='] followed by the tag as it is and by
    a quote, and it is the first statement submitted; for the empty tag
    there is no tag statement at all. *)
Theorem query_tag_is_verbatim {W} (T : Transport W) (query : string)
    (rows : list Row) (kwargs : Kwargs) (statement_params : gmap string string)
    (tag : string) (self : ServerConnection W) :
  tr_is_closed T (_conn self) = false →
  tr_is_in_stored_procedure T (_conn self) = false →
  _statement_params kwargs = Some statement_params →
  statement_params !! "QUERY_TAG" = Some tag →
  ∃ evs,
    calls (run_batch_insert T query rows kwargs self).2 = calls self ++ evs
    ∧ match tag with
      | EmptyString => ∃ outcome, evs = [EvExecuteMany query rows outcome]
      | String _ _ =>
          ∃ outcome rest,
            evs =
              EvExecute ("alter session set query_tag='" +:+ tag +:+ "'")
                        no_kwargs outcome :: rest
            ∧ Forall (λ ev, submitted ev = query
                            ∨ submitted ev = "alter session unset query_tag")
                     rest
      end.
Proof.
  intros Hopen Hproc Hparams Htag.
  destruct (run_batch_insert_spec T query rows kwargs self)
    as (evs & (_ & _ & Hcalls & _) & Hshape & _).
  exists evs. split; [exact Hcalls |].
  rewrite Hopen in Hshape.
  assert (Hrequested : requested_query_tag T kwargs (_conn self) = Some tag).
  { unfold requested_query_tag. now rewrite Hparams, Htag, Hproc. }
  rewrite Hrequested in Hshape.
  destruct tag as [| a tag]; cbn [truthy] in Hshape.
  - eauto.
  - destruct Hshape as (rest & -> & Hrest). eauto.
Qed.

(** The theorem at work: a tag with a quote in it. *)
Lemma query_tag_is_verbatim_witness :
  ∃ outcome rest,
    calls (run_batch_insert scripted "insert into t values (?)" [[VInt 1]]
             (with_query_tag "it's") (connection quiet ∅ ∅)).2 =
      EvExecute "alter session set query_tag='it's'" no_kwargs outcome :: rest.
Proof.
  assert (Htag : ({[ "QUERY_TAG" := "it's" ]} : gmap string string)
                   !! "QUERY_TAG" = Some "it's")
    by (vm_compute; reflexivity).
  destruct (query_tag_is_verbatim scripted "insert into t values (?)"
              [[VInt 1]] (with_query_tag "it's") _ "it's"
              (connection quiet ∅ ∅) eq_refl eq_refl eq_refl Htag)
    as (evs & Hcalls & outcome & rest & Hevs & _).
  exists outcome, rest. rewrite Hcalls, Hevs. reflexivity.
Defined.

(** C4: for the logical name DECIMAL, or FIXED with a nonzero scale, the
    type mapper returns decimal(38,18) when precision and scale are both
    zero; otherwise, when the precision exceeds the maximum supported
    precision, the decimal of maximal precision and of scale
    [scale + precision - max_scale]; otherwise decimal(precision, scale). *)
Theorem decimal_mapping (max_precision max_scale : Z)
    (column_type_name : string) (precision scale : Z) :
  column_type_name = "DECIMAL"
    ∨ (column_type_name = "FIXED" ∧ scale ≠ 0) →
  _get_data_type max_precision max_scale column_type_name precision scale =
    if decide (precision = 0 ∧ scale = 0) then Return (DecimalType 38 18)
    else if decide (precision > max_precision) then
      Return (DecimalType max_precision (scale + precision - max_scale))
    else Return (DecimalType precision scale).
Proof.
  intros Hname.
  assert (Hbranch :
    (String.eqb column_type_name "DECIMAL"
       || (String.eqb column_type_name "FIXED" && negb (scale =? 0))) = true
    ∧ (column_type_name = "DECIMAL" ∨ column_type_name = "FIXED")).
  { destruct Hname as [-> | [-> Hs]]; split; auto.
    apply Z.eqb_neq in Hs. cbn. now rewrite Hs. }
  destruct Hbranch as [Hb Hn].
  unfold _get_data_type.
  assert (Hearly : ∀ s : string,
    s ≠ "DECIMAL" → s ≠ "FIXED" → String.eqb column_type_name s = false).
  { intros s H1 H2. apply String.eqb_neq. destruct Hn; congruence. }
  rewrite !Hearly by discriminate. cbn [orb].
  rewrite Hb.
  destruct (Z.eqb_spec precision 0) as [Hp | Hp],
           (Z.eqb_spec scale 0) as [Hs | Hs]; cbn [negb orb];
    destruct (precision >? max_precision) eqn:Hgt;
    repeat case_decide; try reflexivity; exfalso; lia.
Qed.

(** The theorem at work: a FIXED column of precision 40 and scale 2
    becomes decimal(38, 4) when both maxima are 38. *)
Lemma decimal_mapping_witness :
  _get_data_type 38 38 "FIXED" 40 2 = Return (DecimalType 38 4).
Proof.
  rewrite (decimal_mapping 38 38 "FIXED" 40 2)
    by (right; split; [reflexivity | lia]).
  reflexivity.
Defined.

(** ** Further properties *)

(** *** Type mapper *)

Lemma mentions_elem_of (texts : list string) (text : string) :
  mentions texts text = true ↔ text ∈ texts.
Proof.
  unfold mentions. rewrite existsb_exists. split.
  - intros (x & Hin & Heq). apply String.eqb_eq in Heq. subst x.
    now apply list_elem_of_In.
  - intros Hin. exists text. split; [now apply list_elem_of_In |].
    apply String.eqb_refl.
Qed.

Lemma recognized_or_raised (max_precision max_scale : Z)
    (column_type_name : string) (precision scale : Z) :
  match _get_data_type max_precision max_scale column_type_name
                       precision scale with
  | Return _ => mentions recognized_type_names column_type_name = true
  | Raise e =>
      e = NotImplementedError column_type_name precision scale
      ∧ mentions recognized_type_names column_type_name = false
  end.
Proof.
  unfold _get_data_type, recognized_type_names, mentions.
  cbn [existsb].
  repeat match goal with
         | |- context [String.eqb column_type_name ?s] =>
             destruct (String.eqb_spec column_type_name s) as [-> | ?];
             cbn [orb andb]; try reflexivity
         end.
  - destruct (precision =? 0), (scale =? 0),
      (precision >? max_precision); reflexivity.
  - destruct (precision =? 0), (scale =? 0),
      (precision >? max_precision); reflexivity.
  - split; reflexivity.
Qed.

(** The type mapper raises exactly for the names it does not recognise,
    and the error then carries the name, the precision and the scale it
    was given; for every recognised name it returns a type. *)
Theorem unsupported_type_error (max_precision max_scale : Z)
    (column_type_name : string) (precision scale : Z) :
  match _get_data_type max_precision max_scale column_type_name
                       precision scale with
  | Return _ => column_type_name ∈ recognized_type_names
  | Raise e =>
      e = NotImplementedError column_type_name precision scale
      ∧ column_type_name ∉ recognized_type_names
  end.
Proof.
  pose proof (recognized_or_raised max_precision max_scale column_type_name
                precision scale) as H.
  destruct (_get_data_type max_precision max_scale column_type_name
              precision scale) as [t | e].
  - now apply mentions_elem_of.
  - destruct H as [-> Hno]. split; [reflexivity |].
    rewrite <- mentions_elem_of, Hno. discriminate.
Qed.

(** When the maximum supported precision is at least 38, no decimal the
    type mapper returns has a precision above it. *)
Theorem decimal_precision_bounded (max_precision max_scale : Z)
    (column_type_name : string) (precision scale : Z)
    (result_precision result_scale : Z) :
  38 ≤ max_precision →
  _get_data_type max_precision max_scale column_type_name precision scale =
    Return (DecimalType result_precision result_scale) →
  result_precision ≤ max_precision.
Proof.
  intros Hmax. unfold _get_data_type.
  repeat match goal with
         | |- context [String.eqb column_type_name ?s] =>
             destruct (String.eqb_spec column_type_name s) as [-> | ?];
             cbn [orb andb]; try discriminate
         end.
  - destruct (precision =? 0), (scale =? 0); cbn [negb orb];
      destruct (precision >? max_precision) eqn:Hgt;
      intros H; inversion H; subst; lia.
  - destruct (scale =? 0); cbn [negb orb]; try discriminate;
      destruct (precision =? 0); cbn [negb orb];
      destruct (precision >? max_precision) eqn:Hgt;
      intros H; inversion H; subst; lia.
Qed.

(** The theorem at work: a precision of 50 is brought down to 38. *)
Lemma decimal_precision_bounded_witness : 38 ≤ 38.
Proof.
  apply (decimal_precision_bounded 38 38 "DECIMAL" 50 3 38 15);
    [lia | reflexivity].
Defined.

(** *** Attributes *)

Section Attributes.
Context {W : Type} (E : Environment W).
Variables max_precision max_scale : Z.

(** [convert_result_meta_to_attribute] returns one attribute per column,
    in order, with the quoted name, the mapped type and the nullability
    of the column; it raises when a column has no mapped type, and then
    with the error of the first such column. *)
Theorem attributes_follow_columns (meta : list ResultMetadata) :
  match convert_result_meta_to_attribute E max_precision max_scale meta with
  | Return attributes =>
      map attr_name attributes =
        map (λ column, quote_name_without_upper_casing E (name column)) meta
      ∧ map nullable attributes = map is_nullable meta
      ∧ map (λ a, Return (datatype a)) attributes =
          map (column_data_type E max_precision max_scale) meta
  | Raise e =>
      ∃ before column after,
        meta = before ++ column :: after
        ∧ column_data_type E max_precision max_scale column = Raise e
        ∧ Forall (λ c, ∃ t, column_data_type E max_precision max_scale c
                              = Return t) before
  end.
Proof.
  induction meta as [| column meta IH]; cbn [convert_result_meta_to_attribute].
  - repeat split.
  - destruct (column_data_type E max_precision max_scale column)
      as [t | e] eqn:Hcolumn.
    + destruct (convert_result_meta_to_attribute E max_precision max_scale
                  meta) as [attributes | e].
      * destruct IH as (Hnames & Hnull & Htypes). cbn.
        rewrite Hnames, Hnull, Htypes, Hcolumn. repeat split.
      * destruct IH as (before & c & after & -> & Hc & Hbefore).
        exists (column :: before), c, after.
        split; [reflexivity |]. split; [exact Hc |].
        constructor; [eauto | exact Hbefore].
    + exists [], column, meta. repeat split; [exact Hcolumn | constructor].
Qed.
End Attributes.

(** *** Connection parameters *)

Section Parameters.
Context {W : Type} (E : Environment W).

(** [if key not in parameters: parameters[key] = value] *)
Lemma add_if_missing (key value : string) (parameters : gmap string string) :
  let added :=
    if decide (key ∈ dom parameters) then parameters
    else <[key := value]> parameters in
  parameters ⊆ added
  ∧ dom added = {[key]} ∪ dom parameters
  ∧ added !! key = Some (default value (parameters !! key))
  ∧ ∀ other, other ≠ key → added !! other = parameters !! other.
Proof.
  cbv zeta. destruct (decide (key ∈ dom parameters)) as [Hin | Hout].
  - pose proof Hin as Hdom. apply elem_of_dom in Hin as [v Hv].
    split; [reflexivity |].
    split.
    { apply set_eq. intros x. rewrite elem_of_union, elem_of_singleton.
      split; [tauto | intros [-> | Hx]; assumption]. }
    split; [now rewrite Hv | reflexivity].
  - pose proof Hout as Hnone. apply not_elem_of_dom in Hnone.
    split; [now apply insert_subseteq |].
    split; [apply dom_insert_L |].
    split; [now rewrite lookup_insert_eq, Hnone |].
    intros other Hother. now rewrite lookup_insert_ne.
Qed.

(** [__add_application_name] leaves every parameter that is set as it
    is, sets the three application parameters that are missing, and
    running it again changes nothing. *)
Theorem application_name_defaults (parameters : gmap string string) :
  let added := __add_application_name E parameters in
  parameters ⊆ added
  ∧ dom added =
      {[PARAM_APPLICATION; PARAM_INTERNAL_APPLICATION_NAME;
        PARAM_INTERNAL_APPLICATION_VERSION]} ∪ dom parameters
  ∧ added !! PARAM_APPLICATION =
      Some (default (get_application_name E)
                    (parameters !! PARAM_APPLICATION))
  ∧ added !! PARAM_INTERNAL_APPLICATION_NAME =
      Some (default (get_application_name E)
                    (parameters !! PARAM_INTERNAL_APPLICATION_NAME))
  ∧ added !! PARAM_INTERNAL_APPLICATION_VERSION =
      Some (default (get_version E)
                    (parameters !! PARAM_INTERNAL_APPLICATION_VERSION))
  ∧ __add_application_name E added = added.
Proof.
  cbv zeta.
  assert (H12 : PARAM_APPLICATION ≠ PARAM_INTERNAL_APPLICATION_NAME)
    by discriminate.
  assert (H13 : PARAM_APPLICATION ≠ PARAM_INTERNAL_APPLICATION_VERSION)
    by discriminate.
  assert (H23 : PARAM_INTERNAL_APPLICATION_NAME
                ≠ PARAM_INTERNAL_APPLICATION_VERSION) by discriminate.
  assert (Hdom : ∀ p : gmap string string,
            PARAM_APPLICATION ∈ dom p →
            PARAM_INTERNAL_APPLICATION_NAME ∈ dom p →
            PARAM_INTERNAL_APPLICATION_VERSION ∈ dom p →
            __add_application_name E p = p).
  { intros p H1 H2 H3. unfold __add_application_name.
    rewrite (decide_True (P := PARAM_APPLICATION ∈ dom p)) by exact H1.
    rewrite (decide_True (P := PARAM_INTERNAL_APPLICATION_NAME ∈ dom p))
      by exact H2.
    now rewrite
      (decide_True (P := PARAM_INTERNAL_APPLICATION_VERSION ∈ dom p))
      by exact H3. }
  set (k1 := PARAM_APPLICATION) in *.
  set (k2 := PARAM_INTERNAL_APPLICATION_NAME) in *.
  set (k3 := PARAM_INTERNAL_APPLICATION_VERSION) in *.
  destruct (add_if_missing k1 (get_application_name E) parameters)
    as (Hs1 & Hd1 & Hk1 & Ho1).
  set (p1 := if decide (k1 ∈ dom parameters) then parameters
             else <[k1 := get_application_name E]> parameters) in *.
  destruct (add_if_missing k2 (get_application_name E) p1)
    as (Hs2 & Hd2 & Hk2 & Ho2).
  set (p2 := if decide (k2 ∈ dom p1) then p1
             else <[k2 := get_application_name E]> p1) in *.
  destruct (add_if_missing k3 (get_version E) p2)
    as (Hs3 & Hd3 & Hk3 & Ho3).
  set (p3 := if decide (k3 ∈ dom p2) then p2
             else <[k3 := get_version E]> p2) in *.
  change (__add_application_name E parameters) with p3.
  split; [now do 2 (etrans; [| eassumption]) |].
  assert (Hd : dom p3 = {[k1; k2; k3]} ∪ dom parameters).
  { rewrite Hd3, Hd2, Hd1. apply set_eq. intros x.
    rewrite !elem_of_union, !elem_of_singleton. tauto. }
  split; [exact Hd |].
  split; [now rewrite Ho3, Ho2, Hk1 by congruence |].
  split; [now rewrite Ho3, Hk2, Ho1 by congruence |].
  split; [now rewrite Hk3, Ho2, Ho1 by congruence |].
  apply Hdom; rewrite Hd, !elem_of_union, !elem_of_singleton; tauto.
Qed.
End Parameters.

(** *** Stage paths *)

(** [__build_target_path] starts with the normalised stage, and a prefix
    gives the same target with or without its leading slash. *)
Theorem target_path_leading_slash {W} (E : Environment W)
    (stage_location dest_prefix : string) :
  dest_prefix ≠ EmptyString →
  String.prefix "/" dest_prefix = false →
  __build_target_path E stage_location ("/" +:+ dest_prefix) =
    __build_target_path E stage_location dest_prefix
  ∧ __build_target_path E stage_location dest_prefix =
      normalize_stage_location E stage_location +:+ "/" +:+ dest_prefix.
Proof.
  intros Hne Hslash. unfold __build_target_path.
  destruct dest_prefix as [| c rest]; [congruence |].
  rewrite Hslash. simpl. split; reflexivity.
Qed.

(** The theorem at work. *)
Lemma target_path_leading_slash_witness :
  __build_target_path (scripted_environment (λ _, inr [])) "stage"
                      ("/" +:+ "dir") = "@stage/dir".
Proof.
  destruct (target_path_leading_slash (scripted_environment (λ _, inr []))
              "stage" "dir" ltac:(discriminate) eq_refl) as [Hsame Hpath].
  rewrite Hsame, Hpath. reflexivity.
Defined.

(** *** Plan execution: what a returned result stands on *)

Section Returned.
Context {W : Type} (T : Transport W).




End Returned.


(** *** Plan execution: which result, and closed sessions *)

Section Selection.
Context {W : Type} (T : Transport W).

(** The result [get_result_set] returns is that of the last statement of
    the plan that is not a batch insert: its data, and the description
    the cursor had right after it, whatever batch inserts follow. *)
Theorem result_of_last_result_bearing (plan : SnowflakePlan)
    (to_pandas : bool) (kwargs : Kwargs) (self self' : ServerConnection W)
    (done : list Query) (sql token : string) (rest : list Query)
    (action_id : Z) (w : W) (locals1 : Locals)
    (self1 self2 : ServerConnection W) (r : QueryResult)
    (out : ResultData * option (list ResultMetadata)) :
  queries plan = done ++ Query_ sql token :: rest →
  Forall (λ q, result_bearing q = false) rest →
  tr_generate_new_action_id T (_conn self) = (action_id, w) →
  run_queries T action_id to_pandas kwargs done initial_locals
              (set_conn w self) = (Return locals1, self1) →
  run_query T (substitute (placeholders locals1) sql) to_pandas kwargs self1 =
    (Return r, self2) →
  get_result_set T plan to_pandas kwargs self = (Return out, self') →
  out = (data r, tr_description T (_conn self2)).
Proof.
  intros Hplan Hrest Hstart Hdone Hrun Hfinal.
  rewrite get_result_set_eq, Hstart in Hfinal.
  cbv zeta in Hfinal. cbn [fst snd] in Hfinal.
  set (locals2 :=
         {| placeholders :=
              dict_setitem (placeholders locals1) token (result_sfqid r);
            result := Some r;
            result_meta := tr_description T (_conn self2) |}).
  assert (Hmain :
    run_queries T action_id to_pandas kwargs (queries plan) initial_locals
                (set_conn w self) =
      if action_id <? tr_get_last_canceled_id T (_conn self2)
      then (Raise SERVER_QUERY_IS_CANCELLED, self2)
      else run_queries T action_id to_pandas kwargs rest locals2 self2).
  { rewrite Hplan, run_queries_app. unfold bind at 1. rewrite Hdone.
    cbn [run_queries]. unfold bind at 1.
    rewrite loop_body_eq, run_statement_query, Hrun. cbn [fst snd].
    destruct (action_id <? tr_get_last_canceled_id T (_conn self2));
      reflexivity. }
  rewrite Hmain in Hfinal. clear Hmain.
  destruct (action_id <? tr_get_last_canceled_id T (_conn self2)).
  { cbn [fst snd] in Hfinal.
    destruct (run_post_actions T kwargs (post_actions plan) self2)
      as [[[] | e] s]; discriminate Hfinal. }
  pose proof (run_queries_batch_only T action_id to_pandas kwargs rest
                locals2 self2 Hrest) as Hsame.
  destruct (run_queries T action_id to_pandas kwargs rest locals2 self2)
    as [[locals3 | e] self3]; cbn [fst snd] in *.
  - subst locals3.
    destruct (run_post_actions T kwargs (post_actions plan) self3)
      as [[[] | e] s]; cbn [fst snd result result_meta locals2] in Hfinal;
      [| discriminate Hfinal].
    now inversion Hfinal.
  - destruct (run_post_actions T kwargs (post_actions plan) self3)
      as [[[] | e'] s]; discriminate Hfinal.
Qed.

Lemma run_queries_closed action_id to_pandas kwargs qs locals
    (self : ServerConnection W) :
  tr_is_closed T (_conn self) = true →
  run_queries T action_id to_pandas kwargs qs locals self =
    (match qs with
     | [] => Return locals
     | _ :: _ => Raise SERVER_SESSION_HAS_BEEN_CLOSED
     end, self).
Proof.
  intros Hclosed. destruct qs as [| q qs]; [reflexivity |].
  cbn [run_queries]. unfold bind at 1. rewrite loop_body_eq.
  destruct q as [sql token | sql rows].
  - rewrite run_statement_query. unfold run_query.
    rewrite wrap_exception_eq, Hclosed. reflexivity.
  - rewrite run_statement_batch. unfold run_batch_insert.
    rewrite wrap_exception_eq, Hclosed. reflexivity.
Qed.

Lemma run_post_actions_closed kwargs actions (self : ServerConnection W) :
  tr_is_closed T (_conn self) = true →
  run_post_actions T kwargs actions self =
    (match actions with
     | [] => Return ()
     | _ :: _ => Raise SERVER_SESSION_HAS_BEEN_CLOSED
     end, self).
Proof.
  intros Hclosed. destruct actions as [| action actions]; [reflexivity |].
  cbn [run_post_actions]. unfold bind at 1. unfold run_query.
  rewrite wrap_exception_eq, Hclosed. reflexivity.
Qed.

(** On a connection that is closed when the plan starts, [get_result_set]
    submits nothing and notifies no listener; it raises the
    session-closed error as soon as the plan has a statement or a
    post-action, and the empty-result error for a plan that has
    neither. *)
Theorem closed_session_runs_nothing (plan : SnowflakePlan)
    (to_pandas : bool) (kwargs : Kwargs) (self : ServerConnection W)
    (action_id : Z) (w : W) :
  tr_generate_new_action_id T (_conn self) = (action_id, w) →
  tr_is_closed T w = true →
  let final := get_result_set T plan to_pandas kwargs self in
  final.2 = set_conn w self
  ∧ final.1 =
      match queries plan, post_actions plan with
      | [], [] => Raise SQL_LAST_QUERY_RETURN_RESULTSET
      | _, _ => Raise SERVER_SESSION_HAS_BEEN_CLOSED
      end.
Proof.
  intros Hstart Hclosed. cbv zeta.
  rewrite get_result_set_eq, Hstart. cbv zeta. cbn [fst snd].
  rewrite run_queries_closed by exact Hclosed. cbn [fst snd].
  rewrite run_post_actions_closed by exact Hclosed. cbn [fst snd].
  destruct (queries plan), (post_actions plan); split; reflexivity.
Qed.

(** When the insert of a tagged [run_batch_insert] fails, its exception
    leaves through the session guard and the statement that unsets the
    query tag is not submitted: the tag stays set on the session. *)
Theorem failed_insert_leaves_tag_set (query : string) (rows : list Row)
    (kwargs : Kwargs) (self : ServerConnection W) (a : Ascii.ascii)
    (tag : string) (c1 : Cursor) (w1 w2 : W) (ex : ConnectorError) :
  tr_is_closed T (_conn self) = false →
  requested_query_tag T kwargs (_conn self) = Some (String a tag) →
  tr_execute T ("alter session set query_tag='" +:+ String a tag +:+ "'")
             no_kwargs (_conn self) = (inr c1, w1) →
  tr_executemany T query rows w1 = (inl ex, w2) →
  let inserted := run_batch_insert T query rows kwargs self in
  inserted.1 = Raise (guard_translation (Connector ex))
  ∧ calls inserted.2 =
      calls self ++
        [EvExecute ("alter session set query_tag='" +:+ String a tag +:+ "'")
                   no_kwargs (inr c1);
         EvExecuteMany query rows (inl ex)]
  ∧ _conn inserted.2 = w2.
Proof.
  intros Hopen Htag Hset Hmany. cbv zeta.
  destruct (run_batch_insert T query rows kwargs self)
    as [outcome self'] eqn:Erun.
  unfold run_batch_insert in Erun.
  rewrite wrap_exception_eq, Hopen in Erun. cbv beta zeta in Erun.
  rewrite map_id, Htag in Erun. cbn [truthy] in Erun.
  unfold bind, _cursor_execute, _cursor_executemany,
    set_query_tag_statement in Erun.
  cbn [default from_option id] in Erun. rewrite Hset in Erun.
  cbn [of_outcome notify_query_listeners _conn set_histories log_call
       set_conn] in Erun.
  rewrite Hmany in Erun. cbn in Erun.
  inversion Erun; subst outcome self'. cbn.
  rewrite <- app_assoc. repeat split.
Qed.
End Selection.

(** The theorem at work: the batch insert that follows the only query
    changes neither the data nor the metadata returned. *)
Lemma result_of_last_result_bearing_witness :
  let plan :=
    {| queries := [Query_ "select 1" "T1";
                   BatchInsertQuery "insert into t values (?)" [[VInt 1]]];
       post_actions := [] |} in
  let self := connection quiet ∅ ∅ in
  let w := (tr_generate_new_action_id scripted (_conn self)).2 in
  ∃ r self2,
    run_query scripted "select 1" false no_kwargs (set_conn w self) =
      (Return r, self2)
    ∧ (get_result_set scripted plan false no_kwargs self).1 =
        Return (data r, tr_description scripted (_conn self2)).
Proof.
  cbv zeta.
  set (plan :=
         {| queries := [Query_ "select 1" "T1";
                        BatchInsertQuery "insert into t values (?)"
                                         [[VInt 1]]];
            post_actions := [] |}).
  set (self := connection quiet ∅ ∅).
  set (w := (tr_generate_new_action_id scripted (_conn self)).2).
  assert (Hrun : ∃ r self2,
            run_query scripted "select 1" false no_kwargs (set_conn w self) =
              (Return r, self2))
    by (vm_compute; do 2 eexists; reflexivity).
  assert (Hfinal : ∃ out self',
            get_result_set scripted plan false no_kwargs self =
              (Return out, self'))
    by (vm_compute; do 2 eexists; reflexivity).
  destruct Hrun as (r & self2 & Hrun), Hfinal as (out & self' & Hfinal).
  exists r, self2. split; [exact Hrun |].
  rewrite Hfinal. cbn [fst]. f_equal.
  apply (result_of_last_result_bearing scripted plan false no_kwargs self
           self' [] "select 1" "T1"
           [BatchInsertQuery "insert into t values (?)" [[VInt 1]]]
           1 w initial_locals (set_conn w self) self2 r out
           eq_refl ltac:(repeat constructor) eq_refl eq_refl Hrun Hfinal).
Defined.

(** The theorem at work: a plan of one statement on a closed session. *)
Lemma closed_session_runs_nothing_witness :
  let plan := {| queries := [Query_ "select 1" "T1"];
                 post_actions := ["drop table t"] |} in
  let final :=
    get_result_set scripted plan false no_kwargs
                   (connection (closed_session quiet) ∅ ∅) in
  calls final.2 = [] ∧ final.1 = Raise SERVER_SESSION_HAS_BEEN_CLOSED.
Proof.
  cbv zeta.
  destruct (closed_session_runs_nothing scripted
              {| queries := [Query_ "select 1" "T1"];
                 post_actions := ["drop table t"] |}
              false no_kwargs (connection (closed_session quiet) ∅ ∅)
              1 _ eq_refl eq_refl) as [Hstate Houtcome].
  rewrite Hstate. split; [reflexivity | exact Houtcome].
Defined.

(** The theorem at work: the insert fails after the tag was set. *)
Lemma failed_insert_leaves_tag_set_witness :
  let inserted :=
    run_batch_insert scripted "insert into t values (?)" [[VInt 1]]
      (with_query_tag "nightly")
      (connection (script ["insert into t values (?)"] []) ∅ ∅) in
  inserted.1 =
    Raise (Connector (ProgrammingError "insert into t values (?)"))
  ∧ map submitted (calls inserted.2) =
      ["alter session set query_tag='nightly'"; "insert into t values (?)"].
Proof.
  cbv zeta.
  assert (Htag :
    requested_query_tag scripted (with_query_tag "nightly")
      (_conn (connection (script ["insert into t values (?)"] []) ∅ ∅)) =
      Some "nightly") by (vm_compute; reflexivity).
  destruct (failed_insert_leaves_tag_set scripted "insert into t values (?)"
              [[VInt 1]] (with_query_tag "nightly")
              (connection (script ["insert into t values (?)"] []) ∅ ∅)
              _ _ _ _ _ _ eq_refl Htag eq_refl eq_refl)
    as (Houtcome & Hcalls & _).
  rewrite Houtcome, Hcalls. split; reflexivity.
Defined.

(** *** Re-authentication, listeners, and statements without tokens *)

Section Never.
Context {W : Type} (T : Transport W).

Lemma guarded_never_reauthentication {A} (func : M A)
    (self : ServerConnection W) :
  raises_reauthentication (wrap_exception T func self).1 = false.
Proof.
  rewrite wrap_exception_eq.
  destruct (tr_is_closed T (_conn self)); [reflexivity |].
  cbn [fst]. destruct (func self).1 as [a | [[] | | | | | | |]];
    reflexivity.
Qed.

Lemma run_queries_never_reauthentication action_id to_pandas kwargs qs locals
    (self : ServerConnection W) :
  raises_reauthentication
    (run_queries T action_id to_pandas kwargs qs locals self).1 = false.
Proof.
  revert locals self. induction qs as [| q qs IH]; intros locals self.
  - reflexivity.
  - cbn [run_queries]. unfold bind at 1. rewrite loop_body_eq.
    assert (Hstatement :
      raises_reauthentication
        (run_statement T to_pandas kwargs q locals self).1 = false).
    { destruct q as [sql token | sql rows].
      - rewrite run_statement_query. cbn [fst].
        pose proof (guarded_never_reauthentication
                      (A := QueryResult)) as Hguard.
        unfold run_query.
        match goal with
        | |- context [wrap_exception T ?f self] =>
            specialize (Hguard f self);
            destruct (wrap_exception T f self).1; [reflexivity | exact Hguard]
        end.
      - rewrite run_statement_batch. cbn [fst].
        pose proof (guarded_never_reauthentication (A := ())) as Hguard.
        unfold run_batch_insert.
        match goal with
        | |- context [wrap_exception T ?f self] =>
            specialize (Hguard f self);
            destruct (wrap_exception T f self).1; [reflexivity | exact Hguard]
        end. }
    destruct (run_statement T to_pandas kwargs q locals self)
      as [[locals1 | e] self1]; cbn [fst snd] in *; [| exact Hstatement].
    destruct (action_id <? tr_get_last_canceled_id T (_conn self1));
      [reflexivity | apply IH].
Qed.

Lemma run_post_actions_never_reauthentication kwargs actions
    (self : ServerConnection W) :
  raises_reauthentication (run_post_actions T kwargs actions self).1 = false.
Proof.
  revert self. induction actions as [| action actions IH]; intros self.
  - reflexivity.
  - cbn [run_post_actions]. unfold bind at 1.
    pose proof (guarded_never_reauthentication (A := QueryResult)) as Hguard.
    unfold run_query.
    match goal with
    | |- context [wrap_exception T ?f self] =>
        specialize (Hguard f self);
        destruct (wrap_exception T f self) as [[r | e] self1];
        [apply IH | exact Hguard]
    end.
Qed.

(** No re-authentication request of the connector leaves [run_query],
    [run_batch_insert] or [get_result_set] as it was raised: whatever
    the transport does, a caller never sees one. *)
Theorem reauthentication_never_escapes (plan : SnowflakePlan)
    (query : string) (rows : list Row) (to_pandas : bool) (kwargs : Kwargs)
    (self : ServerConnection W) :
  raises_reauthentication (run_query T query to_pandas kwargs self).1 = false
  ∧ raises_reauthentication
      (run_batch_insert T query rows kwargs self).1 = false
  ∧ raises_reauthentication
      (get_result_set T plan to_pandas kwargs self).1 = false.
Proof.
  split; [apply guarded_never_reauthentication |].
  split; [apply guarded_never_reauthentication |].
  rewrite get_result_set_eq. cbv zeta. cbn [fst].
  set (start := tr_generate_new_action_id T (_conn self)).
  pose proof (run_queries_never_reauthentication start.1 to_pandas kwargs
                (queries plan) initial_locals (set_conn start.2 self))
    as Hmain.
  destruct (run_queries T start.1 to_pandas kwargs (queries plan)
              initial_locals (set_conn start.2 self)) as [main self1].
  cbn [fst snd] in *.
  pose proof (run_post_actions_never_reauthentication kwargs
                (post_actions plan) self1) as Hcleanup.
  destruct (run_post_actions T kwargs (post_actions plan) self1).1
    as [[] | e]; [| exact Hcleanup].
  destruct main as [locals | e]; [| exact Hmain].
  destruct (result locals); reflexivity.
Qed.

(** Registration is that of a set: registering a listener again changes
    nothing, unregistering a listener right after it was registered
    gives the connection back, and unregistering a listener that is not
    registered raises [KeyError] and changes nothing. *)
Theorem register_unregister_round_trip (listener : nat)
    (self : ServerConnection W) :
  listener ∉ _query_listener self →
  remove_query_listener listener (add_query_listener listener self).2 =
    (Return (), self)
  ∧ add_query_listener listener (add_query_listener listener self).2 =
      (Return (), (add_query_listener listener self).2)
  ∧ remove_query_listener listener self = (Raise (KeyError listener), self).
Proof.
  intros Hout. destruct self as [conn parameters listeners store log].
  cbn in Hout. unfold remove_query_listener, add_query_listener.
  cbn [snd _query_listener set_query_listener _conn _lower_case_parameters
       histories calls].
  assert (Hback : ({[listener]} ∪ listeners) ∖ {[listener]} = listeners).
  { apply set_eq. intros x.
    rewrite elem_of_difference, elem_of_union, elem_of_singleton.
    split; [tauto |]. intros Hx. split; [tauto |]. intros ->. contradiction. }
  assert (Hagain : {[listener]} ∪ ({[listener]} ∪ listeners)
                   = {[listener]} ∪ listeners).
  { apply set_eq. intros x. rewrite !elem_of_union. tauto. }
  rewrite decide_True
    by (rewrite elem_of_union, elem_of_singleton; tauto).
  rewrite Hback, Hagain.
  rewrite decide_False by exact Hout. repeat split.
Qed.
End Never.

(** The theorem at work: listener 3 on a connection that has listener 1. *)
Lemma register_unregister_round_trip_witness :
  remove_query_listener 3%nat
    (add_query_listener 3%nat
       (connection quiet ∅ ({[1%nat]} : gset nat))).2 =
    (Return (), connection quiet ∅ ({[1%nat]} : gset nat)).
Proof.
  apply (register_unregister_round_trip 3%nat
           (connection quiet ∅ ({[1%nat]} : gset nat))).
  cbn [_query_listener connection]. intros H.
  apply elem_of_singleton in H. discriminate H.
Defined.

(** A statement in which no bound token occurs is submitted as it is. *)
Lemma str_replace_absent (s old new : string) :
  (∀ i, occurs_at old s i = false) → str_replace s old new = s.
Proof.
  intros Habsent. destruct old as [| c0 old0].
  { specialize (Habsent O). cbn in Habsent. destruct s; discriminate. }
  cbn [str_replace]. induction s as [| c s IH]; [reflexivity |].
  rewrite replace_from_cons by exact (Habsent O).
  f_equal. apply IH. intros i. exact (Habsent (S i)).
Qed.

Theorem statement_without_tokens_is_kept (bindings : dict) (sql : string) :
  Forall (λ binding, ∀ i, occurs_at binding.1 sql i = false) bindings →
  substitute bindings sql = sql.
Proof.
  intros Hall. induction Hall as [| [holder id_] bindings Hholder _ IH].
  - reflexivity.
  - rewrite substitute_cons, str_replace_absent by exact Hholder. exact IH.
Qed.

(** The theorem at work. *)
Lemma statement_without_tokens_is_kept_witness :
  substitute [("T1", "123")] "select 1" = "select 1".
Proof.
  apply statement_without_tokens_is_kept.
  repeat constructor. intros i. cbn [fst].
  do 9 (destruct i as [| i]; [reflexivity |]). reflexivity.
Defined.

(** *** A fetch that fails *)

(** When the statement of [run_query] has been executed and the row
    fetch then fails, the exception of the fetch leaves through the
    session guard, but the statement has been submitted and every
    registered listener has already been handed its record. *)
Theorem fetch_failure_after_broadcast {W} (T : Transport W) (query : string)
    (kwargs : Kwargs) (self : ServerConnection W) (cursor : Cursor)
    (w w' : W) (ex : ConnectorError) :
  tr_is_closed T (_conn self) = false →
  tr_execute T query kwargs (_conn self) = (inr cursor, w) →
  tr_fetchall T w = (inl ex, w') →
  let ran := run_query T query false kwargs self in
  ran.1 = Raise (guard_translation (Connector ex))
  ∧ calls ran.2 = calls self ++ [EvExecute query kwargs (inr cursor)]
  ∧ ∀ listener,
      histories ran.2 listener =
        histories self listener ++
          (if bool_decide (listener ∈ _query_listener self)
           then [record_of cursor] else []).
Proof.
  intros Hopen Hexecute Hfetch. cbv zeta.
  destruct (run_query_spec T query false kwargs self)
    as (evs & (_ & _ & Hcalls & Hhistories) & Hshape & _).
  rewrite Hopen, Hexecute in Hshape. cbn [fst] in Hshape. subst evs.
  split; [| split; [exact Hcalls | exact Hhistories]].
  destruct (run_query T query false kwargs self) as [outcome self'] eqn:Erun.
  unfold run_query in Erun. rewrite wrap_exception_eq, Hopen in Erun.
  unfold bind, _cursor_execute, fetchall in Erun.
  rewrite Hexecute in Erun.
  cbn [of_outcome notify_query_listeners _conn set_histories log_call
       set_conn] in Erun.
  rewrite Hfetch in Erun. cbn in Erun. now inversion Erun.
Qed.

(** The theorem at work: listener 1 has the record of the statement
    whose fetch failed. *)
Lemma fetch_failure_after_broadcast_witness :
  let self :=
    connection (with_fetches None (Some (OtherError "connection reset"))
                             quiet) ∅ ({[1%nat]} : gset nat) in
  let ran := run_query scripted "select 1" false no_kwargs self in
  ran.1 = Raise (Connector (OtherError "connection reset"))
  ∧ histories ran.2 1%nat = [("123", "select 1")].
Proof.
  cbv zeta.
  destruct (fetch_failure_after_broadcast scripted "select 1" no_kwargs
              (connection (with_fetches None
                             (Some (OtherError "connection reset")) quiet)
                          ∅ ({[1%nat]} : gset nat))
              _ _ _ _ eq_refl eq_refl eq_refl)
    as (Houtcome & _ & Hhistories).
  rewrite Houtcome, Hhistories. split; [reflexivity |].
  rewrite bool_decide_true by (now apply elem_of_singleton).
  reflexivity.
Defined.
